(** * solana.rpc.api: transaction submission and confirmation

    A shallow embedding of the stateful part of [solana/rpc/api.py]
    ([Client.get_fee_for_message], [Client.send_raw_transaction],
    [Client.send_transaction], [Client.confirm_transaction]) and the
    properties of the confirmation poller and of the submitter.

    The client talks to a node through a provider and reads the system
    clock.  Both are modelled as a deterministic world: the n-th request
    of a given kind receives the n-th answer of that kind.  Every request,
    clock reading and sleep is appended to a log, so that "no further
    polling" or "before any request" are statements about the log. *)

From Stdlib Require Import ZArith QArith List String Bool Lia.
Import ListNotations.

Local Open Scope Z_scope.

(** ** Values exchanged with the node *)

Definition Signature := string.
Definition Blockhash := string.

(** [solana.rpc.commitment.Commitment]. *)
Inductive Commitment : Type := Processed | Confirmed | Finalized.

(** Modelled from the spec: [COMMITMENT_RANKS] is imported from
    [solana/rpc/commitment.py], which is not among the sources.  The spec
    (section 3) gives the total order Processed < Confirmed < Finalized and
    says that each level carries an integer rank used for comparisons. *)
Definition COMMITMENT_RANKS (c : Commitment) : Z :=
  match c with
  | Processed => 0
  | Confirmed => 1
  | Finalized => 2
  end.

(** The [error] member of a JSON-RPC response. *)
Record RPCError : Type := mkRPCError { code : Z; message : string }.

(** A JSON-RPC response: either [{"error": ...}] or [{"result": ...}]. *)
Inductive RPCResponse (A : Type) : Type :=
| RespError (e : RPCError)
| RespResult (a : A).
Arguments RespError {A} e.
Arguments RespResult {A} a.

(** [resp.get("error")]. *)
Definition get_error {A} (resp : RPCResponse A) : option RPCError :=
  match resp with
  | RespError e => Some e
  | RespResult _ => None
  end.

(** One element of [result.value] of [getSignatureStatuses].  Its
    [confirmationStatus] is one of the three levels, so that the lookup
    in [COMMITMENT_RANKS] always succeeds; a status without that member,
    on which the source raises [KeyError], is outside the model. *)
Record SignatureStatus : Type := mkSignatureStatus {
  slot : Z;
  confirmationStatus : Commitment
}.

(** [result.value] of [getLatestBlockhash]. *)
Record LatestBlockhash : Type := mkLatestBlockhash {
  blockhash : Blockhash;
  lastValidBlockHeight : Z
}.

(** ** Exceptions and outcomes *)

Inductive Exception : Type :=
| RPCException (e : RPCError)
| TransactionExpiredBlockheightExceededError (tx_sig : Signature)
| UnconfirmedTxError (tx_sig : Signature)
| TransactionUncompiledError
| UnboundLocalError (name : string)
| KeyError (key : string).

(** What a call does: it returns, it raises, or the loop bound of the
    model was reached before it did either. *)
Inductive Outcome (A : Type) : Type :=
| Returned (a : A)
| Raised (e : Exception)
| OutOfFuel.
Arguments Returned {A} a.
Arguments Raised {A} e.
Arguments OutOfFuel {A}.

(** ** The log *)

(** [solana.rpc.types.TxOpts]; the fields follow the spec's
    SubmissionOptions. *)
Record TxOpts : Type := mkTxOpts {
  skip_confirmation : bool;
  skip_preflight : bool;
  preflight_commitment : Commitment;
  last_valid_block_height : option Z
}.

Inductive Event : Type :=
| EvTime
| EvSleep (seconds : Q)
| EvGetBlockHeight
| EvGetSignatureStatuses (tx_sig : Signature)
| EvGetLatestBlockhash
| EvGetFeeForMessage
| EvSendTransaction (wire : string) (opts : TxOpts)
| EvCacheGet
| EvCacheSet (b : Blockhash) (used_immediately : bool).

Definition is_time (e : Event) : bool :=
  match e with EvTime => true | _ => false end.
Definition is_height (e : Event) : bool :=
  match e with EvGetBlockHeight => true | _ => false end.
Definition is_poll (e : Event) : bool :=
  match e with EvGetSignatureStatuses _ => true | _ => false end.
Definition is_blockhash (e : Event) : bool :=
  match e with EvGetLatestBlockhash => true | _ => false end.
Definition is_fee (e : Event) : bool :=
  match e with EvGetFeeForMessage => true | _ => false end.
Definition is_send (e : Event) : bool :=
  match e with EvSendTransaction _ _ => true | _ => false end.
Definition is_cache_set (e : Event) : bool :=
  match e with EvCacheSet _ _ => true | _ => false end.
Definition is_request (e : Event) : bool :=
  match e with
  | EvTime | EvSleep _ | EvCacheGet | EvCacheSet _ _ => false
  | _ => true
  end.

(** The log is kept newest first.  [count p l] is the number of events of
    kind [p] so far, which is also the index of the next answer of that
    kind. *)
Fixpoint count (p : Event -> bool) (l : list Event) : nat :=
  match l with
  | [] => 0%nat
  | e :: l' => if p e then S (count p l') else count p l'
  end.

(** ** Transactions and messages *)

Definition Keypair := string.

Record Message : Type := mkMessage { message_bytes : string }.

Record Transaction : Type := mkTransaction {
  recent_blockhash : option Blockhash;
  instructions : string;
  signatures : list string
}.

(** [txn.recent_blockhash = recent_blockhash]. *)
Definition set_recent_blockhash (txn : Transaction) (b : Blockhash)
    : Transaction :=
  mkTransaction (Some b) (instructions txn) (signatures txn).

(** What the client takes from modules that are not part of the core:
    signing and serialising a transaction ([solana.transaction]), and the
    defaults of the two skip flags of [solana.rpc.types.TxOpts], which
    the spec leaves open. *)
Record Library : Type := mkLibrary {
  sign : Transaction -> list Keypair -> Transaction;
  serialize : Transaction -> string;
  TxOpts_skip_confirmation : bool;
  TxOpts_skip_preflight : bool
}.

(** ** The world: the node behind the provider, and the clock *)

Record World : Type := mkWorld {
  signature_status_at : nat -> RPCResponse (option SignatureStatus);
  block_height_at : nat -> RPCResponse Z;
  latest_blockhash_at : nat -> LatestBlockhash;
  send_transaction_at : nat -> RPCResponse Signature;
  fee_at : nat -> RPCResponse Z;
  time_at : nat -> Q
}.

(** [x < y] on rationals, as a boolean. *)
Definition Qltb (x y : Q) : bool := negb (Qle_bool y x).

(** ** The blockhash cache *)

Module BlockhashCache.

(** Modelled from the spec: [solana.blockhash.BlockhashCache] is not
    among the sources.  Section 3 of the spec gives the data, section 4.2
    the two operations: [get] prefers the oldest unused entry younger
    than the ttl, then the oldest used one, and fails otherwise; [set]
    purges expired entries, puts the hash at the newest position (an
    equal entry already present is marked used instead of duplicated)
    and drops the oldest entries beyond [maxSize]. *)
Record CacheEntry : Type := mkEntry {
  entry_blockhash : Blockhash;
  insertedAt : Q;
  used : bool
}.

Record t : Type := mkCache {
  entries : list CacheEntry;   (* oldest first *)
  ttlSeconds : Q;
  maxSize : nat
}.

Definition young (c : t) (now : Q) (e : CacheEntry) : bool :=
  Qltb (now - insertedAt e) (ttlSeconds c).

(** [None] stands for the cache miss ([ValueError] in the source). *)
Definition get (now : Q) (c : t) : option Blockhash :=
  match find (fun e => negb (used e) && young c now e) (entries c) with
  | Some e => Some (entry_blockhash e)
  | None =>
      match find (fun e => used e && young c now e) (entries c) with
      | Some e => Some (entry_blockhash e)
      | None => None
      end
  end.

Definition same_hash (b : Blockhash) (e : CacheEntry) : bool :=
  String.eqb b (entry_blockhash e).

Definition set (now : Q) (b : Blockhash) (used_immediately : bool) (c : t) : t :=
  let alive := filter (young c now) (entries c) in
  let placed :=
    match find (same_hash b) alive with
    | Some e =>
        filter (fun e' => negb (same_hash b e')) alive
          ++ [mkEntry b (insertedAt e) true]
    | None => alive ++ [mkEntry b now used_immediately]
    end in
  mkCache (skipn (List.length placed - maxSize c)%nat placed) (ttlSeconds c) (maxSize c).

End BlockhashCache.

(** ** Client state and the monad of calls *)

(** [Client] fields that never change after construction. *)
Record Client : Type := mkClient {
  _commitment : Commitment
}.

(** What a call can change: the log of interactions and the blockhash
    cache ([None] when [self.blockhash_cache] is [False]). *)
Record State : Type := mkState {
  log : list Event;
  blockhash_cache : option BlockhashCache.t
}.

Definition M (A : Type) : Type := State -> Outcome A * State.

Definition ret {A} (a : A) : M A := fun s => (Returned a, s).

Definition bind {A B} (m : M A) (k : A -> M B) : M B :=
  fun s =>
    match m s with
    | (Returned a, s') => k a s'
    | (Raised e, s') => (Raised e, s')
    | (OutOfFuel, s') => (OutOfFuel, s')
    end.

Definition raise {A} (e : Exception) : M A := fun s => (Raised e, s).

Definition out_of_fuel {A} : M A := fun s => (OutOfFuel, s).

Definition emit (e : Event) : M unit :=
  fun s => (Returned tt, mkState (e :: log s) (blockhash_cache s)).

Declare Scope monad_scope.
Delimit Scope monad_scope with monad.
Notation "x <- m ;; k" := (bind m (fun x => k))
  (at level 61, m at next level, right associativity) : monad_scope.
Notation "m ;;; k" := (bind m (fun _ => k))
  (at level 61, right associativity) : monad_scope.
Local Open Scope monad_scope.

(** [resp["result"]]. *)
Definition subscript_result {A} (resp : RPCResponse A) : M A :=
  match resp with
  | RespResult a => ret a
  | RespError _ => raise (KeyError "result")
  end.

(** Reading a local variable that may not have been assigned yet. *)
Definition read_local {A} (name : string) (v : option A) : M A :=
  match v with
  | Some a => ret a
  | None => raise (UnboundLocalError name)
  end.

(** Truth value of an [Optional[int]] in a condition. *)
Definition truthy (v : option Z) : bool :=
  match v with
  | None => false
  | Some n => negb (n =? 0)
  end.

(** ** The client *)

Section Api.

Variable w : World.
Variable self : Client.

(** *** Clock, sleep and the requests used by the core *)

(** [time()]. *)
Definition time : M Q :=
  fun s => (Returned (time_at w (count is_time (log s))),
            mkState (EvTime :: log s) (blockhash_cache s)).

(** [sleep(seconds)]: only the clock can tell that it happened.  The
    [ValueError] of [time.sleep] on a negative argument is outside the
    model. *)
Definition sleep (seconds : Q) : M unit := emit (EvSleep seconds).

(** [self._provider.make_request(body)] for one kind of request: the
    request is logged and the world's next answer of that kind is
    returned. *)
Definition make_request {A} (kind : Event -> bool) (ev : Event)
    (answer : nat -> A) : M A :=
  fun s => (Returned (answer (count kind (log s))),
            mkState (ev :: log s) (blockhash_cache s)).

Definition get_block_height (commitment : option Commitment)
    : M (RPCResponse Z) :=
  make_request is_height EvGetBlockHeight (block_height_at w).

(** Called with the one-element list [[tx_sig]]; the answer carries
    [result.value[0]]. *)
Definition get_signature_statuses (tx_sig : Signature)
    : M (RPCResponse (option SignatureStatus)) :=
  make_request is_poll (EvGetSignatureStatuses tx_sig)
               (signature_status_at w).

(** The answers to [getLatestBlockhash] are taken in their successful
    shape: how a failed fetch is reported is decided by
    [parse_recent_blockhash] in [solana/rpc/core.py]. *)
Definition get_latest_blockhash (commitment : option Commitment)
    : M LatestBlockhash :=
  make_request is_blockhash EvGetLatestBlockhash (latest_blockhash_at w).

(** *** confirm_transaction *)

Definition StatusResponse : Type := RPCResponse (option SignatureStatus).

(** The test made on [resp_value] in both loops:
    [resp_value is not None] and
    [COMMITMENT_RANKS[resp_value["confirmationStatus"]] >= commitment_rank]. *)
Definition reached (commitment_rank : Z) (resp_value : option SignatureStatus)
    : bool :=
  match resp_value with
  | None => false
  | Some st =>
      let confirmation_status := confirmationStatus st in
      let confirmation_rank := COMMITMENT_RANKS confirmation_status in
      confirmation_rank >=? commitment_rank
  end.

(** The [else] clause of either loop: it reads [resp], which is bound
    only if the loop body ran. *)
Definition loop_exhausted (resp : option StatusResponse) (final : Exception)
    : M StatusResponse :=
  r <- read_local "resp" resp ;;
  match get_error r with
  | Some maybe_rpc_error => raise (RPCException maybe_rpc_error)
  | None => raise final
  end.

Section Confirm.

Variable tx_sig : Signature.
Variable commitment : option Commitment.
Variable sleep_seconds : Q.
Variable commitment_rank : Z.

(** [while current_blockheight <= last_valid_block_height: ... else: ...]
    followed by [return resp]. *)
Fixpoint height_loop (fuel : nat) (last_valid_block_height : Z)
    (current_blockheight : Z) (resp : option StatusResponse)
    : M StatusResponse :=
  match fuel with
  | O => out_of_fuel
  | S fuel' =>
      if current_blockheight <=? last_valid_block_height then
        resp <- get_signature_statuses tx_sig ;;
        match get_error resp with
        | Some maybe_rpc_error => raise (RPCException maybe_rpc_error)
        | None =>
            resp_value <- subscript_result resp ;;
            if reached commitment_rank resp_value then ret resp
            else
              height_resp <- get_block_height commitment ;;
              current_blockheight <- subscript_result height_resp ;;
              sleep sleep_seconds ;;;
              height_loop fuel' last_valid_block_height
                          current_blockheight (Some resp)
        end
      else
        loop_exhausted resp
          (TransactionExpiredBlockheightExceededError tx_sig)
  end.

(** [while time() < timeout: ... else: ...] followed by [return resp]. *)
Fixpoint wall_clock_loop (fuel : nat) (timeout : Q)
    (resp : option StatusResponse) : M StatusResponse :=
  match fuel with
  | O => out_of_fuel
  | S fuel' =>
      now <- time ;;
      if Qltb now timeout then
        resp <- get_signature_statuses tx_sig ;;
        match get_error resp with
        | Some maybe_rpc_error => raise (RPCException maybe_rpc_error)
        | None =>
            resp_value <- subscript_result resp ;;
            if reached commitment_rank resp_value then ret resp
            else
              sleep sleep_seconds ;;;
              wall_clock_loop fuel' timeout (Some resp)
        end
      else
        loop_exhausted resp (UnconfirmedTxError tx_sig)
  end.

End Confirm.

Definition confirm_transaction (fuel : nat) (tx_sig : Signature)
    (commitment : option Commitment) (sleep_seconds : Q)
    (last_valid_block_height : option Z) : M StatusResponse :=
  now <- time ;;
  let timeout := (now + 30)%Q in
  let commitment_to_use :=
    match commitment with
    | None => _commitment self
    | Some c => c
    end in
  let commitment_rank := COMMITMENT_RANKS commitment_to_use in
  if truthy last_valid_block_height then
    height_resp <- get_block_height commitment ;;
    current_blockheight <- subscript_result height_resp ;;
    height_loop tx_sig commitment sleep_seconds commitment_rank fuel
                (match last_valid_block_height with Some h => h | None => 0 end)
                current_blockheight None
  else
    wall_clock_loop tx_sig sleep_seconds commitment_rank fuel timeout None.

(** *** get_fee_for_message *)

(** The argument is annotated [Message], but the body tests
    [isinstance(message, Transaction)]: both can arrive. *)
Inductive FeeArgument : Type :=
| IsMessage (m : Message)
| IsTransaction (txn : Transaction).

Definition get_fee_for_message (message : FeeArgument)
    (commitment : option Commitment) : M (RPCResponse Z) :=
  match message with
  | IsTransaction _ => raise TransactionUncompiledError
  | IsMessage _ => make_request is_fee EvGetFeeForMessage (fee_at w)
  end.

(** *** The blockhash cache seen from the client *)

Variable lib : Library.

(** [self.blockhash_cache.get()]; [None] is the [ValueError] of a miss. *)
Definition blockhash_cache_get (c : BlockhashCache.t)
    : M (option Blockhash) :=
  now <- time ;;
  emit EvCacheGet ;;;
  ret (BlockhashCache.get now c).

(** [self.blockhash_cache.set(blockhash, used_immediately=...)]. *)
Definition blockhash_cache_set (b : Blockhash) (used_immediately : bool)
    : M unit :=
  now <- time ;;
  fun s =>
    (Returned tt,
     mkState (EvCacheSet b used_immediately :: log s)
             (option_map (BlockhashCache.set now b used_immediately)
                         (blockhash_cache s))).

Definition parse_recent_blockhash (blockhash_resp : LatestBlockhash)
    : Blockhash :=
  blockhash blockhash_resp.

(** Modelled from the spec: [_ClientCore._process_blockhash_resp] is
    defined in [solana/rpc/core.py], which is not among the sources.
    The spec describes its two uses in [send_transaction]: after the
    dispatch ([used_immediately=False]) the fetched hash is inserted into
    the cache as unused (4.3, step 5); on a cache miss
    ([used_immediately=True]) the fetched hash goes into the transaction
    and is not inserted into the cache at that point (4.3 step 1 and
    section 9). *)
Definition _process_blockhash_resp (blockhash_resp : LatestBlockhash)
    (used_immediately : bool) : M Blockhash :=
  let recent_blockhash := parse_recent_blockhash blockhash_resp in
  (if used_immediately then ret tt
   else blockhash_cache_set recent_blockhash false) ;;;
  ret recent_blockhash.

(** *** send_raw_transaction *)

Definition SendResponse : Type := RPCResponse Signature.

(** [types.TxOpts(preflight_commitment=..., last_valid_block_height=...)];
    a height that is not passed is [None]. *)
Definition TxOpts_new (preflight : Commitment) (height : option Z) : TxOpts :=
  mkTxOpts (TxOpts_skip_confirmation lib) (TxOpts_skip_preflight lib)
           preflight height.

(** Modelled from the spec: [_ClientCore._post_send] is defined in
    [solana/rpc/core.py].  Spec 4.3: a request-level error reported for
    the submission is propagated unchanged; otherwise the response is
    handed on. *)
Definition _post_send (resp : SendResponse) : M SendResponse :=
  match get_error resp with
  | Some error => raise (RPCException error)
  | None => ret resp
  end.

(** Modelled from the spec: [_ClientCore._send_raw_transaction_post_send_args]
    is defined in [solana/rpc/core.py].  Spec 4.3: the poller is handed
    targetCommitment = opts.preflightCommitment and
    lastValidBlockHeight = opts.lastValidBlockHeight. *)
Definition _send_raw_transaction_post_send_args (resp : SendResponse)
    (opts : TxOpts) : SendResponse * Commitment * option Z :=
  (resp, preflight_commitment opts, last_valid_block_height opts).

Definition post_send_with_confirm (fuel : nat) (resp : SendResponse)
    (conf_comm : Commitment) (last_valid_block_height : option Z)
    : M SendResponse :=
  resp <- _post_send resp ;;
  tx_sig <- subscript_result resp ;;
  confirm_transaction fuel tx_sig (Some conf_comm) (1 # 2)
                      last_valid_block_height ;;;
  ret resp.

Definition send_raw_transaction (fuel : nat) (txn : string)
    (opts : option TxOpts) : M SendResponse :=
  let opts_to_use :=
    match opts with
    | None => TxOpts_new (_commitment self) None
    | Some o => o
    end in
  resp <- make_request is_send (EvSendTransaction txn opts_to_use)
                       (send_transaction_at w) ;;
  if skip_confirmation opts_to_use then _post_send resp
  else
    let '(resp', conf_comm, height) :=
      _send_raw_transaction_post_send_args resp opts_to_use in
    post_send_with_confirm fuel resp' conf_comm height.

(** *** send_transaction *)

(** The first statement block of [send_transaction]: the blockhash to
    embed and the [last_valid_block_height] captured with it. *)
Definition choose_blockhash (recent_blockhash : option Blockhash)
    : M (Blockhash * option Z) :=
  match recent_blockhash with
  | Some b => ret (b, None)
  | None =>
      fun s =>
        match blockhash_cache s with
        | Some c =>
            (cached <- blockhash_cache_get c ;;
             match cached with
             | Some b => ret (b, None)
             | None =>
                 blockhash_resp <- get_latest_blockhash (Some Finalized) ;;
                 b <- _process_blockhash_resp blockhash_resp true ;;
                 ret (b, Some (lastValidBlockHeight blockhash_resp))
             end) s
        | None =>
            (blockhash_resp <- get_latest_blockhash (Some Finalized) ;;
             ret (parse_recent_blockhash blockhash_resp,
                  Some (lastValidBlockHeight blockhash_resp))) s
        end
  end.

(** [send_transaction] up to and including the call of
    [send_raw_transaction]. *)
Definition send_transaction_dispatch (fuel : nat) (txn : Transaction)
    (signers : list Keypair) (opts : option TxOpts)
    (recent_blockhash : option Blockhash) : M SendResponse :=
  chosen <- choose_blockhash recent_blockhash ;;
  let '(recent_blockhash, last_valid_block_height) := chosen in
  let txn := set_recent_blockhash txn recent_blockhash in
  let txn := sign lib txn signers in
  let opts_to_use :=
    match opts with
    | None => TxOpts_new (_commitment self) last_valid_block_height
    | Some o => o
    end in
  send_raw_transaction fuel (serialize lib txn) (Some opts_to_use).

(** The statements after the dispatch:
    [if self.blockhash_cache: ... _process_blockhash_resp(..., False)]. *)
Definition refresh_cache : M unit :=
  fun s =>
    match blockhash_cache s with
    | Some _ =>
        (blockhash_resp <- get_latest_blockhash (Some Finalized) ;;
         _process_blockhash_resp blockhash_resp false ;;;
         ret tt) s
    | None => ret tt s
    end.

Definition send_transaction (fuel : nat) (txn : Transaction)
    (signers : list Keypair) (opts : option TxOpts)
    (recent_blockhash : option Blockhash) : M SendResponse :=
  txn_resp <- send_transaction_dispatch fuel txn signers opts
                                        recent_blockhash ;;
  refresh_cache ;;;
  ret txn_resp.

End Api.

(** * Vocabulary of the properties *)

(** ** Logs and loops *)

Section Vocabulary.

Variable w : World.
Variable tx_sig : Signature.
Variable commitment : option Commitment.
Variable sleep_seconds : Q.
Variable commitment_rank : Z.

(** The state after the events [evs] (newest first) were logged. *)
Definition logged (evs : list Event) (s : State) : State :=
  mkState (evs ++ log s) (blockhash_cache s).

(** A polled answer after which the loop goes on: no error, and no status
    at or above the target. *)
Definition pending (a : StatusResponse) : bool :=
  match a with
  | RespError _ => false
  | RespResult v => negb (reached commitment_rank v)
  end.

(** The poll with index [i] was the last thing the call did. *)
Definition ended_at_poll (i : nat) (s' : State) : Prop :=
  count is_poll (log s') = S i /\
  exists older, log s' = EvGetSignatureStatuses tx_sig :: older.

(** What the answer to poll [i] means for a run with outcome [r] and
    final state [s']. *)
Definition poll_verdict (i : nat) (r : Outcome StatusResponse) (s' : State)
    : Prop :=
  match signature_status_at w i with
  | RespError e => r = Raised (RPCException e) /\ ended_at_poll i s'
  | RespResult v =>
      if reached commitment_rank v then
        r = Returned (RespResult v) /\ ended_at_poll i s'
      else
        (S i < count is_poll (log s'))%nat \/
        (forall a, r <> Returned a) /\
        (forall e, r <> Raised (RPCException e))
  end.

(** In the recursive calls [resp] holds an answer without error. *)
Definition clean (resp : option StatusResponse) : Prop :=
  match resp with
  | Some (RespError _) => False
  | _ => True
  end.

(** The events a wall-clock loop can log, and those a height-bounded
    loop can log. *)
Definition wall_event (e : Event) : bool :=
  match e with
  | EvTime | EvSleep _ | EvGetSignatureStatuses _ => true
  | _ => false
  end.

Definition height_event (e : Event) : bool :=
  match e with
  | EvGetBlockHeight | EvSleep _ | EvGetSignatureStatuses _ => true
  | _ => false
  end.

(** The newest event of [s'] is a poll, and [a] was its answer. *)
Definition last_poll_answered (a : StatusResponse) (s' : State) : Prop :=
  exists older,
    log s' = EvGetSignatureStatuses tx_sig :: older /\
    signature_status_at w (count is_poll older) = a.

Definition polled (s s' : State) : Prop :=
  (count is_poll (log s) < count is_poll (log s'))%nat.

(** [k] turns of a loop, each logging [turn]. *)
Fixpoint turns (turn : list Event) (k : nat) : list Event :=
  match k with
  | O => []
  | S k' => turns turn k' ++ turn
  end.

Definition wall_turn : list Event :=
  [EvSleep sleep_seconds; EvGetSignatureStatuses tx_sig; EvTime].

Definition height_turn : list Event :=
  [EvSleep sleep_seconds; EvGetBlockHeight; EvGetSignatureStatuses tx_sig].

(** How a wall-clock loop can end. *)
Definition wall_ending (fuel : nat) (timeout : Q)
    (resp : option StatusResponse)
    (s : State) (r : Outcome StatusResponse) (s' : State) : Prop :=
  match r with
  | Returned a =>
      last_poll_answered a s' /\ pending a = false /\ get_error a = None /\
      polled s s'
  | Raised (RPCException e) =>
      last_poll_answered (RespError e) s' /\ polled s s'
  | Raised (UnconfirmedTxError sg) =>
      sg = tx_sig /\
      (exists older, log s' = EvTime :: older /\
                     Qltb (time_at w (count is_time older)) timeout = false) /\
      (resp = None -> polled s s')
  | Raised (UnboundLocalError _) =>
      resp = None /\ s' = logged [EvTime] s /\
      Qltb (time_at w (count is_time (log s))) timeout = false
  | Raised _ => False
  | OutOfFuel =>
      fuel = 0%nat /\ s' = s \/
      exists older, log s' = EvSleep sleep_seconds :: older
  end.

(** How a height-bounded loop can end. *)
Definition height_ending (limit current : Z) (resp : option StatusResponse)
    (s : State) (r : Outcome StatusResponse) (s' : State) : Prop :=
  match r with
  | Returned a =>
      last_poll_answered a s' /\ pending a = false /\ get_error a = None /\
      polled s s'
  | Raised (RPCException e) =>
      last_poll_answered (RespError e) s' /\ polled s s'
  | Raised (TransactionExpiredBlockheightExceededError sg) =>
      sg = tx_sig /\ (resp = None -> polled s s')
  | Raised (UnboundLocalError _) =>
      resp = None /\ s' = s /\ (current <=? limit) = false
  | Raised (KeyError _) =>
      polled s s' /\
      exists older e, log s' = EvGetBlockHeight :: older /\
                      block_height_at w (count is_height older) = RespError e
  | Raised _ => False
  | OutOfFuel => True
  end.

(** The value of [resp] after [k] turns that started at poll [p0]. *)
Definition resp_after (resp : option StatusResponse) (p0 k : nat)
    : option StatusResponse :=
  match k with
  | O => resp
  | S k' => Some (signature_status_at w (p0 + k'))
  end.

(** The heights the loop condition sees: the one read before the loop,
    then one per turn. *)
Definition observed (current : Z) (h0 j : nat) : RPCResponse Z :=
  match j with
  | O => RespResult current
  | S j' => block_height_at w (h0 + j')
  end.

Definition within (limit : Z) (a : RPCResponse Z) : bool :=
  match a with
  | RespResult c => c <=? limit
  | RespError _ => false
  end.

Definition exceeds (limit : Z) (a : RPCResponse Z) : bool :=
  match a with
  | RespResult c => negb (c <=? limit)
  | RespError _ => false
  end.

(** The outcome of a poll that ends the loop: its error is raised, its
    response is returned. *)
Definition settled (a : StatusResponse) : Outcome StatusResponse :=
  match a with
  | RespError e => Raised (RPCException e)
  | RespResult v => Returned (RespResult v)
  end.

End Vocabulary.

(** ** Runs of confirm_transaction *)

(** [commitment_to_use] and its rank. *)
Definition target_commitment (self : Client) (commitment : option Commitment)
    : Commitment :=
  match commitment with
  | None => _commitment self
  | Some c => c
  end.

Definition target_rank (self : Client) (commitment : option Commitment) : Z :=
  COMMITMENT_RANKS (target_commitment self commitment).

(** A height-bounded run: after the reading that sets the (unused)
    deadline the call asks for the block height, and from then on it only
    polls, asks for the height and sleeps. *)
Definition height_bounded_run (s s' : State) : Prop :=
  exists evs,
    log s' = evs ++ EvGetBlockHeight :: EvTime :: log s /\
    Forall (fun e => height_event e = true) evs.

(** A wall-clock run: the call only reads the clock, polls and sleeps. *)
Definition wall_clock_run (s s' : State) : Prop :=
  exists evs,
    log s' = evs ++ EvTime :: log s /\
    Forall (fun e => wall_event e = true) evs.

(** Events logged by [confirm_transaction]. *)
Definition confirm_event (e : Event) : bool :=
  match e with
  | EvTime | EvSleep _ | EvGetBlockHeight | EvGetSignatureStatuses _ => true
  | _ => false
  end.

(** Events logged while the blockhash is chosen. *)
Definition choose_event (e : Event) : bool :=
  match e with
  | EvTime | EvCacheGet | EvGetLatestBlockhash => true
  | _ => false
  end.

(** ** Concrete worlds *)

Module Sample.

Definition client : Client := mkClient Finalized.

Definition library : Library :=
  mkLibrary (fun txn signers => mkTransaction (recent_blockhash txn)
                                  (instructions txn) signers)
            (fun txn => instructions txn)
            true false.

Definition start : State := mkState [] None.

Definition tx : Signature := "5VERv8NM"%string.

Definition status (c : Commitment) : RPCResponse (option SignatureStatus) :=
  RespResult (Some (mkSignatureStatus 72 c)).

Definition unknown : RPCResponse (option SignatureStatus) := RespResult None.

Definition refused : RPCError := mkRPCError (-32002) "node is behind".

(** The n-th element of [l], or [d] once [l] is used up. *)
Definition answers {A} (l : list A) (d : A) : nat -> A :=
  fun n => nth n l d.

Definition world (statuses : nat -> RPCResponse (option SignatureStatus))
    (heights : nat -> RPCResponse Z) (clock : nat -> Q) : World :=
  mkWorld statuses heights
          (fun n => mkLatestBlockhash
                      (nth n ["EALChog1"; "7pXsAq3n"] "Hk2mWd8c")%string
                      (3090 + Z.of_nat n))
          (fun _ => RespResult tx)
          (fun _ => RespResult 5000)
          clock.

(** A clock that advances twenty seconds between two readings. *)
Definition slow_clock : nat -> Q := fun n => inject_Z (20 * Z.of_nat n).

(** A clock that advances one second between two readings. *)
Definition steady_clock : nat -> Q := fun n => inject_Z (Z.of_nat n).

(** The transaction stays unknown to the node; the chain is at height
    101 and grows by one block per query. *)
Definition silent : World :=
  world (fun _ => unknown) (fun n => RespResult (101 + Z.of_nat n)) slow_clock.

(** Two polls see nothing, the third sees the status [Confirmed]. *)
Definition third_poll_confirmed : World :=
  world (answers [unknown; unknown] (status Confirmed))
        (fun n => RespResult (10 + Z.of_nat n)) steady_clock.

(** The second poll is answered with an error. *)
Definition second_poll_refused : World :=
  world (answers [unknown; RespError refused] (status Finalized))
        (fun n => RespResult (10 + Z.of_nat n)) steady_clock.

(** The transaction stays unknown and the chain stays at height 10. *)
Definition stalled : World :=
  world (fun _ => unknown) (fun _ => RespResult 10) steady_clock.

(** A clock that is forty-five seconds further at each reading: it was set
    forward, or the process was suspended, between two readings. *)
Definition stepped_clock : nat -> Q := fun n => inject_Z (45 * Z.of_nat n).

(** The transaction stays unknown while the clock is being set forward. *)
Definition clock_set_forward : World :=
  world (fun _ => unknown) (fun _ => RespResult 10) stepped_clock.

(** The second height query is answered with an error. *)
Definition height_refused : World :=
  world (fun _ => unknown)
        (answers [RespResult 10; RespError refused] (RespResult 11))
        steady_clock.

(** A client state with the cache switched on and still empty. *)
Definition empty_cache : BlockhashCache.t := BlockhashCache.mkCache [] 60 300.

Definition cached : State := mkState [] (Some empty_cache).

(** Options that ask for a confirmation at [Confirmed] and carry no
    height. *)
Definition confirming : TxOpts := mkTxOpts false false Confirmed None.

Definition transfer : Transaction :=
  mkTransaction None "transfer 1000 lamports" [].

Definition sender : Keypair := "sender"%string.

Definition own_hash : Blockhash := "4uQeVj5t"%string.

End Sample.

(** * Properties *)

(** ** Comparing clock readings *)

Lemma Qltb_lt (x y : Q) : Qltb x y = true <-> (x < y)%Q.
Proof.
  unfold Qltb. rewrite negb_true_iff. split; intro H.
  - apply Qnot_le_lt. intro Hle. apply Qle_bool_iff in Hle. congruence.
  - destruct (Qle_bool y x) eqn:E; [|reflexivity].
    apply Qle_bool_iff in E. exfalso. exact (Qlt_not_le _ _ H E).
Qed.

Lemma Qltb_ge (x y : Q) : Qltb x y = false <-> (y <= x)%Q.
Proof.
  unfold Qltb. rewrite negb_false_iff. apply Qle_bool_iff.
Qed.

(** ** Counting events *)

Lemma count_app (p : Event -> bool) (l1 l2 : list Event) :
  count p (l1 ++ l2) = (count p l1 + count p l2)%nat.
Proof.
  induction l1 as [|e l1 IH]; simpl; [reflexivity|].
  destruct (p e); simpl; rewrite IH; reflexivity.
Qed.

Lemma count_none (p : Event -> bool) (l : list Event) :
  Forall (fun e => p e = false) l -> count p l = 0%nat.
Proof.
  induction 1 as [|e l He _ IH]; simpl; [reflexivity|].
  rewrite He. exact IH.
Qed.

(** ** One turn of each loop *)

Section Loops.

Variable w : World.
Variable tx_sig : Signature.
Variable commitment : option Commitment.
Variable sleep_seconds : Q.
Variable commitment_rank : Z.

Local Abbreviation wall :=
  (wall_clock_loop w tx_sig sleep_seconds commitment_rank).
Local Abbreviation high :=
  (height_loop w tx_sig commitment sleep_seconds commitment_rank).
Local Abbreviation pending := (pending commitment_rank).
Local Abbreviation ended_at_poll := (ended_at_poll tx_sig).
Local Abbreviation poll_verdict := (poll_verdict w tx_sig commitment_rank).
Local Abbreviation last_poll_answered := (last_poll_answered w tx_sig).
Local Abbreviation wall_turn := (wall_turn tx_sig sleep_seconds).
Local Abbreviation height_turn := (height_turn tx_sig sleep_seconds).
Local Abbreviation wall_ending :=
  (wall_ending w tx_sig sleep_seconds commitment_rank).
Local Abbreviation height_ending :=
  (height_ending w tx_sig commitment_rank).
Local Abbreviation resp_after := (resp_after w).
Local Abbreviation observed := (observed w).

Lemma wall_clock_loop_step fuel timeout resp s :
  wall (S fuel) timeout resp s =
  if Qltb (time_at w (count is_time (log s))) timeout then
    match signature_status_at w (count is_poll (log s)) with
    | RespError e =>
        (Raised (RPCException e),
         logged [EvGetSignatureStatuses tx_sig; EvTime] s)
    | RespResult v =>
        if reached commitment_rank v then
          (Returned (RespResult v),
           logged [EvGetSignatureStatuses tx_sig; EvTime] s)
        else
          wall fuel timeout (Some (RespResult v))
            (logged [EvSleep sleep_seconds;
                     EvGetSignatureStatuses tx_sig; EvTime] s)
    end
  else loop_exhausted resp (UnconfirmedTxError tx_sig) (logged [EvTime] s).
Proof.
  simpl. unfold bind, time at 1. simpl.
  destruct (Qltb _ timeout); [|reflexivity].
  unfold get_signature_statuses, make_request. simpl.
  destruct (signature_status_at w _) as [e|v]; simpl; [reflexivity|].
  destruct (reached commitment_rank v); reflexivity.
Qed.

Lemma height_loop_step fuel limit current resp s :
  high (S fuel) limit current resp s =
  if current <=? limit then
    match signature_status_at w (count is_poll (log s)) with
    | RespError e =>
        (Raised (RPCException e), logged [EvGetSignatureStatuses tx_sig] s)
    | RespResult v =>
        if reached commitment_rank v then
          (Returned (RespResult v),
           logged [EvGetSignatureStatuses tx_sig] s)
        else
          match block_height_at w (count is_height (log s)) with
          | RespError _ =>
              (Raised (KeyError "result"),
               logged [EvGetBlockHeight; EvGetSignatureStatuses tx_sig] s)
          | RespResult current' =>
              high fuel limit current' (Some (RespResult v))
                (logged [EvSleep sleep_seconds; EvGetBlockHeight;
                         EvGetSignatureStatuses tx_sig] s)
          end
    end
  else
    loop_exhausted resp (TransactionExpiredBlockheightExceededError tx_sig) s.
Proof.
  simpl.
  destruct (current <=? limit); [|reflexivity].
  unfold bind, get_signature_statuses, make_request. simpl.
  destruct (signature_status_at w _) as [e|v]; simpl; [reflexivity|].
  destruct (reached commitment_rank v); [reflexivity|].
  unfold get_block_height, make_request. simpl.
  destruct (block_height_at w _) as [e|h]; reflexivity.
Qed.

Lemma loop_exhausted_state resp final s :
  snd (loop_exhausted resp final s) = s.
Proof.
  destruct resp as [[e|v]|]; reflexivity.
Qed.

Lemma loop_exhausted_bound a final s :
  loop_exhausted (Some a) final s =
  (Raised (match get_error a with
           | Some e => RPCException e
           | None => final
           end), s).
Proof.
  destruct a; reflexivity.
Qed.

Lemma loop_exhausted_unbound final s :
  loop_exhausted None final s = (Raised (UnboundLocalError "resp"), s).
Proof. reflexivity. Qed.

Lemma loop_exhausted_clean resp final s r s' :
  clean resp ->
  loop_exhausted resp final s = (r, s') ->
  s' = s /\
  (resp <> None /\ r = Raised final \/
   resp = None /\ r = Raised (UnboundLocalError "resp")).
Proof.
  destruct resp as [[e|v]|]; simpl; intros Hc H; try contradiction;
    inversion H; subst; split; auto.
  left. split; [discriminate|reflexivity].
Qed.

Lemma logged_logged evs1 evs2 s :
  logged evs1 (logged evs2 s) = logged (evs1 ++ evs2) s.
Proof.
  unfold logged. simpl. rewrite app_assoc. reflexivity.
Qed.

Lemma logged_nil s : logged [] s = s.
Proof. destruct s; reflexivity. Qed.

Lemma count_logged p evs s :
  count p (log (logged evs s)) = (count p evs + count p (log s))%nat.
Proof. apply count_app. Qed.

Lemma wall_clock_loop_ending fuel : forall timeout resp s r s',
  clean resp ->
  wall fuel timeout resp s = (r, s') ->
  (exists evs, s' = logged evs s /\ Forall (fun e => wall_event e = true) evs)
  /\ wall_ending fuel timeout resp s r s'.
Proof.
  induction fuel as [|fuel IH]; intros timeout resp s r s' Hc Hrun.
  - inversion Hrun; subst. split; [|left; auto].
    exists []. rewrite logged_nil. auto.
  - rewrite wall_clock_loop_step in Hrun.
    destruct (Qltb _ timeout) eqn:Et.
    + destruct (signature_status_at w (count is_poll (log s))) as [e|v] eqn:Ea.
      * inversion Hrun; subst; clear Hrun. split.
        -- eexists. split; [reflexivity|]. repeat constructor.
        -- split; [|red; simpl; lia].
           exists (EvTime :: log s). auto.
      * destruct (reached commitment_rank v) eqn:Ev.
        -- inversion Hrun; subst; clear Hrun. split.
           ++ eexists. split; [reflexivity|]. repeat constructor.
           ++ repeat split; simpl; try (rewrite Ev; reflexivity);
                [|red; simpl; lia].
              exists (EvTime :: log s). auto.
        -- apply IH in Hrun; [|exact I].
           destruct Hrun as [[evs [Es Hevs]] Hend].
           assert (Hgrow : polled s s').
           { red. rewrite Es, count_logged. simpl. lia. }
           split.
           ++ exists (evs ++ wall_turn). split.
              ** rewrite Es. apply logged_logged.
              ** apply Forall_app. split; [exact Hevs|]. repeat constructor.
           ++ destruct r as [a|[e| | | |nm|k]|]; simpl in *; auto.
              ** destruct Hend as (H1 & H2 & H3 & _). auto.
              ** destruct Hend as (H1 & _). auto.
              ** destruct Hend as (H1 & H2 & _). auto.
              ** destruct Hend as (H1 & _). discriminate.
              ** right. destruct Hend as [[_ ->]|Hs]; [|exact Hs].
                 simpl. eauto.
    + apply loop_exhausted_clean in Hrun; [|exact Hc].
      destruct Hrun as [-> Hr]. split.
      * eexists. split; [reflexivity|]. repeat constructor.
      * destruct Hr as [[Hb ->]|[-> ->]]; simpl.
        -- repeat split.
           ++ exists (log s). auto.
           ++ intros ->. contradiction.
        -- auto.
Qed.

Lemma height_loop_ending fuel : forall limit current resp s r s',
  clean resp ->
  high fuel limit current resp s = (r, s') ->
  (exists evs, s' = logged evs s /\
               Forall (fun e => height_event e = true) evs)
  /\ height_ending limit current resp s r s'.
Proof.
  induction fuel as [|fuel IH]; intros limit current resp s r s' Hc Hrun.
  - inversion Hrun; subst. split; [|exact I].
    exists []. rewrite logged_nil. auto.
  - rewrite height_loop_step in Hrun.
    destruct (current <=? limit) eqn:Et.
    + destruct (signature_status_at w (count is_poll (log s))) as [e|v] eqn:Ea.
      * inversion Hrun; subst; clear Hrun. split.
        -- eexists. split; [reflexivity|]. repeat constructor.
        -- split; [|red; simpl; lia].
           exists (log s). auto.
      * destruct (reached commitment_rank v) eqn:Ev.
        -- inversion Hrun; subst; clear Hrun. split.
           ++ eexists. split; [reflexivity|]. repeat constructor.
           ++ repeat split; simpl; try (rewrite Ev; reflexivity);
                [|red; simpl; lia].
              exists (log s). auto.
        -- destruct (block_height_at w (count is_height (log s)))
             as [e|h] eqn:Eh.
           { inversion Hrun; subst; clear Hrun. split.
             - eexists. split; [reflexivity|]. repeat constructor.
             - simpl. split; [red; simpl; lia|].
               exists (EvGetSignatureStatuses tx_sig :: log s), e. auto. }
           apply IH in Hrun; [|exact I].
           destruct Hrun as [[evs [-> Hevs]] Hend].
           rewrite logged_logged in *. split.
           ++ eexists. split; [reflexivity|].
              apply Forall_app. split; [exact Hevs|]. repeat constructor.
           ++ assert (Hgrow : polled s
                        (logged (evs ++ [EvSleep sleep_seconds;
                                         EvGetBlockHeight;
                                         EvGetSignatureStatuses tx_sig]) s)).
              { red. rewrite count_logged, count_app. simpl. lia. }
              destruct r as [a|[e| | | |nm|k]|]; simpl in *; auto.
              ** destruct Hend as (H1 & H2 & H3 & _). auto.
              ** destruct Hend as (H1 & _). auto.
              ** destruct Hend as (H1 & _). auto.
              ** destruct Hend as (H1 & _). discriminate.
              ** destruct Hend as (_ & H1). auto.
    + apply loop_exhausted_clean in Hrun; [|exact Hc].
      destruct Hrun as [-> Hr]. split.
      * exists []. rewrite logged_nil. auto.
      * destruct Hr as [[Hb ->]|[-> ->]]; simpl; auto.
        split; [reflexivity|]. intros ->. contradiction.
Qed.

(** Each loop only adds events to the log. *)
Lemma logged_polls_mono evs s :
  (count is_poll (log s) <= count is_poll (log (logged evs s)))%nat.
Proof. rewrite count_logged. lia. Qed.

Lemma wall_poll_verdict fuel : forall timeout resp s r s',
  clean resp ->
  wall fuel timeout resp s = (r, s') ->
  forall i, (count is_poll (log s) <= i < count is_poll (log s'))%nat ->
  poll_verdict i r s'.
Proof.
  induction fuel as [|fuel IH]; intros timeout resp s r s' Hc Hrun i Hi.
  - inversion Hrun; subst. lia.
  - rewrite wall_clock_loop_step in Hrun.
    destruct (Qltb _ timeout).
    + unfold poll_verdict.
      destruct (signature_status_at w (count is_poll (log s))) as [e|v] eqn:Ea.
      * inversion Hrun; subst; clear Hrun. simpl in Hi.
        assert (i = count is_poll (log s)) by lia. subst i.
        rewrite Ea. split; [reflexivity|].
        split; simpl; eauto.
      * destruct (reached commitment_rank v) eqn:Ev.
        -- inversion Hrun; subst; clear Hrun. simpl in Hi.
           assert (i = count is_poll (log s)) by lia. subst i.
           rewrite Ea, Ev. split; [reflexivity|].
           split; simpl; eauto.
        -- destruct (Nat.eq_dec i (count is_poll (log s))) as [->|Hne].
           ++ rewrite Ea, Ev.
              apply wall_clock_loop_ending in Hrun; [|exact I].
              destruct Hrun as [[evs [-> _]] Hend].
              pose proof (logged_polls_mono evs
                (logged [EvSleep sleep_seconds;
                         EvGetSignatureStatuses tx_sig; EvTime] s)) as Hm.
              simpl in Hm.
              destruct (Nat.eq_dec
                (count is_poll (log (logged evs
                   (logged [EvSleep sleep_seconds;
                            EvGetSignatureStatuses tx_sig; EvTime] s))))
                (S (count is_poll (log s)))) as [Hl|Hl]; [|left; lia].
              right. split.
              ** intros a ->. simpl in Hend.
                 destruct Hend as (_ & _ & _ & Hp). red in Hp. simpl in *. lia.
              ** intros e ->. simpl in Hend.
                 destruct Hend as (_ & Hp). red in Hp. simpl in *. lia.
           ++ eapply IH; [|exact Hrun|simpl; lia]. exact I.
    + apply loop_exhausted_clean in Hrun; [|exact Hc].
      destruct Hrun as [-> _]. simpl in Hi. lia.
Qed.

Lemma height_poll_verdict fuel : forall limit current resp s r s',
  clean resp ->
  high fuel limit current resp s = (r, s') ->
  forall i, (count is_poll (log s) <= i < count is_poll (log s'))%nat ->
  poll_verdict i r s'.
Proof.
  induction fuel as [|fuel IH]; intros limit current resp s r s' Hc Hrun i Hi.
  - inversion Hrun; subst. lia.
  - rewrite height_loop_step in Hrun.
    destruct (current <=? limit).
    + unfold poll_verdict.
      destruct (signature_status_at w (count is_poll (log s))) as [e|v] eqn:Ea.
      * inversion Hrun; subst; clear Hrun. simpl in Hi.
        assert (i = count is_poll (log s)) by lia. subst i.
        rewrite Ea. split; [reflexivity|].
        split; simpl; eauto.
      * destruct (reached commitment_rank v) eqn:Ev.
        -- inversion Hrun; subst; clear Hrun. simpl in Hi.
           assert (i = count is_poll (log s)) by lia. subst i.
           rewrite Ea, Ev. split; [reflexivity|].
           split; simpl; eauto.
        -- destruct (block_height_at w (count is_height (log s))) as [e|h].
           { inversion Hrun; subst; clear Hrun. simpl in Hi.
             assert (i = count is_poll (log s)) by lia. subst i.
             rewrite Ea, Ev. right. split; intros; discriminate. }
           destruct (Nat.eq_dec i (count is_poll (log s))) as [->|Hne].
           ++ rewrite Ea, Ev.
              apply height_loop_ending in Hrun; [|exact I].
              destruct Hrun as [[evs [-> _]] Hend].
              pose proof (logged_polls_mono evs
                (logged [EvSleep sleep_seconds; EvGetBlockHeight;
                         EvGetSignatureStatuses tx_sig] s)) as Hm.
              simpl in Hm.
              destruct (Nat.eq_dec
                (count is_poll (log (logged evs
                   (logged [EvSleep sleep_seconds; EvGetBlockHeight;
                            EvGetSignatureStatuses tx_sig] s))))
                (S (count is_poll (log s)))) as [Hl|Hl]; [|left; lia].
              right. split.
              ** intros a ->. simpl in Hend.
                 destruct Hend as (_ & _ & _ & Hp). red in Hp. simpl in *. lia.
              ** intros e ->. simpl in Hend.
                 destruct Hend as (_ & Hp). red in Hp. simpl in *. lia.
           ++ eapply IH; [|exact Hrun|simpl; lia]. exact I.
    + apply loop_exhausted_clean in Hrun; [|exact Hc].
      destruct Hrun as [-> _]. lia.
Qed.

(** Every poll of a wall-clock loop follows a clock reading below the
    deadline: the [j]-th poll of the loop follows its [j]-th reading. *)
Lemma wall_polls_in_time fuel : forall timeout resp s r s',
  wall fuel timeout resp s = (r, s') ->
  forall j, (count is_poll (log s) + j < count is_poll (log s'))%nat ->
  Qltb (time_at w (count is_time (log s) + j)) timeout = true.
Proof.
  induction fuel as [|fuel IH]; intros timeout resp s r s' Hrun j Hj.
  - inversion Hrun; subst. lia.
  - rewrite wall_clock_loop_step in Hrun.
    destruct (Qltb _ timeout) eqn:Et.
    + destruct (signature_status_at w (count is_poll (log s))) as [e|v].
      * inversion Hrun; subst; clear Hrun. simpl in Hj.
        assert (j = 0)%nat by lia. subst j. rewrite Nat.add_0_r. exact Et.
      * destruct (reached commitment_rank v).
        -- inversion Hrun; subst; clear Hrun. simpl in Hj.
           assert (j = 0)%nat by lia. subst j. rewrite Nat.add_0_r. exact Et.
        -- destruct j as [|j]; [rewrite Nat.add_0_r; exact Et|].
           specialize (IH _ _ _ _ _ Hrun j). simpl in IH.
           rewrite Nat.add_succ_r. apply IH. lia.
    + pose proof (loop_exhausted_state resp (UnconfirmedTxError tx_sig)
                    (logged [EvTime] s)) as Hs.
      rewrite Hrun in Hs. simpl in Hs. subst s'. simpl in Hj. lia.
Qed.

(** *** Runs that exhaust the loop condition *)

Lemma wall_clock_loop_timeout k : forall fuel timeout resp s,
  (k < fuel)%nat ->
  (forall j, (j < k)%nat ->
     Qltb (time_at w (count is_time (log s) + j)) timeout = true /\
     pending (signature_status_at w (count is_poll (log s) + j)) = true) ->
  Qltb (time_at w (count is_time (log s) + k)) timeout = false ->
  wall fuel timeout resp s =
  loop_exhausted (resp_after resp (count is_poll (log s)) k)
                 (UnconfirmedTxError tx_sig)
                 (logged (EvTime :: turns wall_turn k) s).
Proof.
  induction k as [|k IH]; intros fuel timeout resp s Hf Hturns Hend;
    (destruct fuel as [|fuel]; [lia|]); rewrite wall_clock_loop_step.
  - rewrite Nat.add_0_r in Hend. rewrite Hend. reflexivity.
  - destruct (Hturns 0%nat ltac:(lia)) as [Ht Hp].
    rewrite Nat.add_0_r in Ht, Hp. rewrite Ht.
    destruct (signature_status_at w (count is_poll (log s))) as [e|v] eqn:Ea;
      [discriminate|].
    simpl in Hp. apply negb_true_iff in Hp. rewrite Hp.
    rewrite (IH fuel timeout); [| lia | |].
    + rewrite logged_logged. simpl.
      f_equal. destruct k as [|k]; simpl.
      * rewrite Nat.add_0_r. symmetry. f_equal. exact Ea.
      * rewrite Nat.add_succ_r. reflexivity.
    + intros j Hj. simpl.
      destruct (Hturns (S j) ltac:(lia)) as [Ht' Hp'].
      rewrite Nat.add_succ_r in Ht', Hp'. auto.
    + simpl. rewrite Nat.add_succ_r in Hend. exact Hend.
Qed.

Lemma height_loop_expiry k : forall fuel limit current resp s,
  (k < fuel)%nat ->
  (forall j, (j < k)%nat ->
     within limit (observed current (count is_height (log s)) j) = true /\
     pending (signature_status_at w (count is_poll (log s) + j)) = true) ->
  exceeds limit (observed current (count is_height (log s)) k) = true ->
  high fuel limit current resp s =
  loop_exhausted (resp_after resp (count is_poll (log s)) k)
                 (TransactionExpiredBlockheightExceededError tx_sig)
                 (logged (turns height_turn k) s).
Proof.
  induction k as [|k IH]; intros fuel limit current resp s Hf Hturns Hend;
    (destruct fuel as [|fuel]; [lia|]); rewrite height_loop_step.
  - simpl in Hend. apply negb_true_iff in Hend. rewrite Hend.
    rewrite logged_nil. reflexivity.
  - destruct (Hturns 0%nat ltac:(lia)) as [Ht Hp].
    rewrite Nat.add_0_r in Hp. simpl in Ht. rewrite Ht.
    destruct (signature_status_at w (count is_poll (log s))) as [e|v] eqn:Ea;
      [discriminate|].
    simpl in Hp. apply negb_true_iff in Hp. rewrite Hp.
    assert (Hnext : exists c,
               block_height_at w (count is_height (log s)) = RespResult c).
    { destruct k as [|k].
      - simpl in Hend. rewrite Nat.add_0_r in Hend.
        destruct (block_height_at w _) as [e|c]; [discriminate|eauto].
      - destruct (Hturns 1%nat ltac:(lia)) as [Ht' _]. simpl in Ht'.
        rewrite Nat.add_0_r in Ht'.
        destruct (block_height_at w _) as [e|c]; [discriminate|eauto]. }
    destruct Hnext as [c Ec]. rewrite Ec.
    assert (Hshift : forall j,
               observed c (S (count is_height (log s))) j =
               observed current (count is_height (log s)) (S j)).
    { intros [|j]; simpl.
      - rewrite Nat.add_0_r. symmetry. exact Ec.
      - rewrite Nat.add_succ_r. reflexivity. }
    rewrite (IH fuel limit c); [| lia | |].
    + rewrite logged_logged. simpl.
      f_equal. destruct k as [|k]; simpl.
      * rewrite Nat.add_0_r. symmetry. f_equal. exact Ea.
      * rewrite Nat.add_succ_r. reflexivity.
    + intros j Hj. simpl count. rewrite Hshift.
      destruct (Hturns (S j) ltac:(lia)) as [Ht' Hp'].
      rewrite Nat.add_succ_r in Hp'. auto.
    + simpl count. rewrite Hshift. exact Hend.
Qed.

End Loops.

(** ** confirm_transaction as a whole *)

Section Confirmation.

Variable w : World.
Variable self : Client.

Local Abbreviation target_commitment := (target_commitment self).
Local Abbreviation target_rank := (target_rank self).

Lemma truthy_spec (v : option Z) :
  truthy v = true <-> exists h, v = Some h /\ h <> 0.
Proof.
  destruct v as [h|]; simpl.
  - rewrite negb_true_iff, Z.eqb_neq. split.
    + intros Hh. exists h. auto.
    + intros [h' [Heq Hh]]. inversion Heq; subst. exact Hh.
  - split; [discriminate|]. intros [h [Heq _]]. discriminate.
Qed.

Lemma falsy_spec (v : option Z) :
  truthy v = false <-> v = None \/ v = Some 0.
Proof.
  destruct v as [h|]; simpl.
  - rewrite negb_false_iff, Z.eqb_eq. split.
    + intros ->. auto.
    + intros [Heq|Heq]; inversion Heq; reflexivity.
  - split; auto.
Qed.

(** With a falsy [last_valid_block_height] the call is the wall-clock loop
    started right after the reading that fixes the deadline. *)
Lemma confirm_transaction_wall_clock fuel tx_sig commitment sleep_seconds
    height s :
  truthy height = false ->
  confirm_transaction w self fuel tx_sig commitment sleep_seconds height s =
  wall_clock_loop w tx_sig sleep_seconds (target_rank commitment) fuel
    (time_at w (count is_time (log s)) + 30)%Q None (logged [EvTime] s).
Proof.
  intros Hf. unfold confirm_transaction, bind, time. simpl.
  rewrite Hf. reflexivity.
Qed.

(** With a truthy one it is a height query followed by the height-bounded
    loop. *)
Lemma confirm_transaction_height_bounded fuel tx_sig commitment sleep_seconds
    limit s :
  limit <> 0 ->
  confirm_transaction w self fuel tx_sig commitment sleep_seconds
                      (Some limit) s =
  match block_height_at w (count is_height (log s)) with
  | RespError _ =>
      (Raised (KeyError "result"), logged [EvGetBlockHeight; EvTime] s)
  | RespResult current =>
      height_loop w tx_sig commitment sleep_seconds (target_rank commitment)
        fuel limit current None (logged [EvGetBlockHeight; EvTime] s)
  end.
Proof.
  intros Hl. unfold confirm_transaction, bind, time. simpl.
  apply Z.eqb_neq in Hl. rewrite Hl. simpl.
  unfold get_block_height, make_request. simpl.
  destruct (block_height_at w _); reflexivity.
Qed.

(** The verdict on each poll made by a call, in either mode. *)
Lemma confirm_transaction_poll_verdict fuel tx_sig commitment sleep_seconds
    height s r s' :
  confirm_transaction w self fuel tx_sig commitment sleep_seconds height s
    = (r, s') ->
  forall i, (count is_poll (log s) <= i < count is_poll (log s'))%nat ->
  poll_verdict w tx_sig (target_rank commitment) i r s'.
Proof.
  intros Hrun i Hi.
  destruct (truthy height) eqn:Ht.
  - apply truthy_spec in Ht. destruct Ht as [limit [-> Hl]].
    rewrite confirm_transaction_height_bounded in Hrun by exact Hl.
    destruct (block_height_at w _) as [e|current].
    + inversion Hrun; subst. simpl in Hi. lia.
    + eapply height_poll_verdict; [|exact Hrun|exact Hi]. exact I.
  - rewrite confirm_transaction_wall_clock in Hrun by exact Ht.
    eapply wall_poll_verdict; [|exact Hrun|exact Hi]. exact I.
Qed.

End Confirmation.

(** ** The confirmation poller *)

(** Two runs on the status sequence [null, null, Confirmed]: the call
    returns on the third poll, after exactly three status queries, in
    either mode. *)
Example third_poll_confirms_height_bounded :
  confirm_transaction Sample.third_poll_confirmed Sample.client 10 Sample.tx
                      (Some Confirmed) (1 # 2) (Some 100) Sample.start =
  (Returned (Sample.status Confirmed),
   logged (EvGetSignatureStatuses Sample.tx
             :: turns (height_turn Sample.tx (1 # 2)) 2
             ++ [EvGetBlockHeight; EvTime]) Sample.start).
Proof. reflexivity. Qed.

Example third_poll_confirms_wall_clock :
  confirm_transaction Sample.third_poll_confirmed Sample.client 10 Sample.tx
                      (Some Confirmed) (1 # 2) None Sample.start =
  (Returned (Sample.status Confirmed),
   logged (EvGetSignatureStatuses Sample.tx :: EvTime
             :: turns (wall_turn Sample.tx (1 # 2)) 2
             ++ [EvTime]) Sample.start).
Proof. reflexivity. Qed.

(** C7.  In both modes a polled status ends the call as confirmed exactly
    when its rank is at least the rank of the target commitment: if it is,
    the call returns that very response and does nothing after the poll; if
    the call returned on that poll, the rank was at least the target's.  In
    particular a status equal to the target commitment is accepted. *)
Theorem confirmed_iff_rank_at_least
    (w : World) (self : Client) (fuel : nat) (tx_sig : Signature)
    (commitment : option Commitment) (sleep_seconds : Q)
    (height : option Z) (s s' : State) (r : Outcome StatusResponse)
    (i : nat) (st : SignatureStatus) :
  confirm_transaction w self fuel tx_sig commitment sleep_seconds height s
    = (r, s') ->
  (count is_poll (log s) <= i < count is_poll (log s'))%nat ->
  signature_status_at w i = RespResult (Some st) ->
  (COMMITMENT_RANKS (confirmationStatus st)
     >= COMMITMENT_RANKS (target_commitment self commitment)
   <-> r = Returned (RespResult (Some st)) /\ ended_at_poll tx_sig i s')
  /\ (confirmationStatus st = target_commitment self commitment ->
      r = Returned (RespResult (Some st)) /\ ended_at_poll tx_sig i s').
Proof.
  intros Hrun Hi Ha.
  pose proof (confirm_transaction_poll_verdict _ _ _ _ _ _ _ _ _ _ Hrun i Hi)
    as Hv.
  unfold poll_verdict in Hv. rewrite Ha in Hv.
  unfold target_rank, reached in Hv.
  assert (Hiff : COMMITMENT_RANKS (confirmationStatus st)
                   >= COMMITMENT_RANKS (target_commitment self commitment)
                 <-> r = Returned (RespResult (Some st))
                     /\ ended_at_poll tx_sig i s').
  { destruct (COMMITMENT_RANKS (confirmationStatus st)
                >=? COMMITMENT_RANKS (target_commitment self commitment))
      eqn:E.
    - split; [intros _; exact Hv|]. intros _. apply Z.geb_le in E. lia.
    - split.
      + intros Hge. apply Z.ge_le in Hge. apply Z.geb_le in Hge. congruence.
      + intros [Hr [Hc _]]. exfalso.
        destruct Hv as [Hlt|[Hnr _]]; [lia|]. exact (Hnr _ Hr). }
  split; [exact Hiff|].
  intros Heq. apply Hiff. rewrite Heq. lia.
Qed.

Lemma confirmed_iff_rank_at_least_witness :
  let run :=
    confirm_transaction Sample.third_poll_confirmed Sample.client 10
                        Sample.tx (Some Confirmed) (1 # 2) None
                        Sample.start in
  (COMMITMENT_RANKS Confirmed >= COMMITMENT_RANKS Confirmed
   <-> fst run = Returned (Sample.status Confirmed)
       /\ ended_at_poll Sample.tx 2 (snd run))
  /\ (Confirmed = Confirmed ->
      fst run = Returned (Sample.status Confirmed)
      /\ ended_at_poll Sample.tx 2 (snd run)).
Proof.
  intros run.
  apply (confirmed_iff_rank_at_least Sample.third_poll_confirmed Sample.client
           10 Sample.tx (Some Confirmed) (1 # 2) None Sample.start (snd run)
           (fst run) 2%nat (mkSignatureStatus 72 Confirmed)).
  - reflexivity.
  - simpl. lia.
  - reflexivity.
Defined.

(** C5.  In both modes, a poll whose response carries a request-level
    error makes the call raise [RPCException] with that error at once: the
    poll is the last event of the call, so no poll follows it. *)
Theorem poll_error_raised_at_once
    (w : World) (self : Client) (fuel : nat) (tx_sig : Signature)
    (commitment : option Commitment) (sleep_seconds : Q)
    (height : option Z) (s s' : State) (r : Outcome StatusResponse)
    (i : nat) (e : RPCError) :
  confirm_transaction w self fuel tx_sig commitment sleep_seconds height s
    = (r, s') ->
  (count is_poll (log s) <= i < count is_poll (log s'))%nat ->
  get_error (signature_status_at w i) = Some e ->
  r = Raised (RPCException e) /\
  count is_poll (log s') = S i /\
  exists older, log s' = EvGetSignatureStatuses tx_sig :: older.
Proof.
  intros Hrun Hi He.
  pose proof (confirm_transaction_poll_verdict _ _ _ _ _ _ _ _ _ _ Hrun i Hi)
    as Hv.
  unfold poll_verdict in Hv.
  destruct (signature_status_at w i) as [e'|v]; [|discriminate].
  simpl in He. inversion He; subst e'. exact Hv.
Qed.

Lemma poll_error_raised_at_once_witness :
  let run height :=
    confirm_transaction Sample.second_poll_refused Sample.client 10 Sample.tx
                        (Some Confirmed) (1 # 2) height Sample.start in
  (fst (run None) = Raised (RPCException Sample.refused) /\
   count is_poll (log (snd (run None))) = 2%nat /\
   exists older, log (snd (run None)) = EvGetSignatureStatuses Sample.tx :: older)
  /\
  (fst (run (Some 100)) = Raised (RPCException Sample.refused) /\
   count is_poll (log (snd (run (Some 100)))) = 2%nat /\
   exists older,
     log (snd (run (Some 100))) = EvGetSignatureStatuses Sample.tx :: older).
Proof.
  intros run. split.
  - apply (poll_error_raised_at_once Sample.second_poll_refused Sample.client
             10 Sample.tx (Some Confirmed) (1 # 2) None Sample.start
             (snd (run None)) (fst (run None)) 1%nat Sample.refused).
    + reflexivity.
    + simpl. lia.
    + reflexivity.
  - apply (poll_error_raised_at_once Sample.second_poll_refused Sample.client
             10 Sample.tx (Some Confirmed) (1 # 2) (Some 100) Sample.start
             (snd (run (Some 100))) (fst (run (Some 100))) 1%nat
             Sample.refused).
    + reflexivity.
    + simpl. lia.
    + reflexivity.
Defined.

(** *** The two modes *)

Lemma modes_exclusive (s s' : State) :
  ~ (height_bounded_run s s' /\ wall_clock_run s s').
Proof.
  intros [[evs1 [E1 F1]] [evs2 [E2 F2]]].
  assert (H : count is_height (log s') = count is_height (log s')) by reflexivity.
  rewrite E1 in H at 1. rewrite E2 in H.
  rewrite !count_app in H. simpl in H.
  rewrite (count_none is_height evs2) in H.
  - lia.
  - eapply Forall_impl; [|exact F2]. intros [] He; simpl in *; congruence.
Qed.

Lemma confirm_transaction_height_bounded_run
    (w : World) (self : Client) (fuel : nat) (tx_sig : Signature)
    (commitment : option Commitment) (sleep_seconds : Q)
    (limit : Z) (s s' : State) (r : Outcome StatusResponse) :
  limit <> 0 ->
  confirm_transaction w self fuel tx_sig commitment sleep_seconds
                      (Some limit) s = (r, s') ->
  height_bounded_run s s'.
Proof.
  intros Hh Hrun.
  rewrite confirm_transaction_height_bounded in Hrun by exact Hh.
  destruct (block_height_at w _) as [e|current].
  - inversion Hrun; subst. exists []. split; [reflexivity|constructor].
  - apply height_loop_ending in Hrun; [|exact I].
    destruct Hrun as [[evs [-> Hevs]] _].
    exists evs. split; [reflexivity|exact Hevs].
Qed.

Lemma confirm_transaction_wall_clock_run
    (w : World) (self : Client) (fuel : nat) (tx_sig : Signature)
    (commitment : option Commitment) (sleep_seconds : Q)
    (height : option Z) (s s' : State) (r : Outcome StatusResponse) :
  truthy height = false ->
  confirm_transaction w self fuel tx_sig commitment sleep_seconds height s
    = (r, s') ->
  wall_clock_run s s'.
Proof.
  intros Hf Hrun.
  rewrite confirm_transaction_wall_clock in Hrun by exact Hf.
  apply wall_clock_loop_ending in Hrun; [|exact I].
  destruct Hrun as [[evs [-> Hevs]] _].
  exists evs. split; [reflexivity|exact Hevs].
Qed.

(** C2, as the code has it.  The mode is selected by the truth value of
    [last_valid_block_height]: the height-bounded mode runs when a
    non-zero height is supplied, the wall-clock mode when it is [None] or
    zero, and no run is of both kinds. *)
Theorem mode_selected_by_truth_value
    (w : World) (self : Client) (fuel : nat) (tx_sig : Signature)
    (commitment : option Commitment) (sleep_seconds : Q)
    (height : option Z) (s s' : State) (r : Outcome StatusResponse) :
  confirm_transaction w self fuel tx_sig commitment sleep_seconds height s
    = (r, s') ->
  ((exists h, height = Some h /\ h <> 0) -> height_bounded_run s s') /\
  (height = None \/ height = Some 0 -> wall_clock_run s s') /\
  ~ (height_bounded_run s s' /\ wall_clock_run s s').
Proof.
  intros Hrun. split; [|split; [|apply modes_exclusive]].
  - intros [h [-> Hh]].
    exact (confirm_transaction_height_bounded_run _ _ _ _ _ _ _ _ _ _ Hh Hrun).
  - intros Hf. apply falsy_spec in Hf.
    exact (confirm_transaction_wall_clock_run _ _ _ _ _ _ _ _ _ _ Hf Hrun).
Qed.

Lemma mode_selected_by_truth_value_witness :
  height_bounded_run Sample.start
    (snd (confirm_transaction Sample.silent Sample.client 10 Sample.tx None
            (1 # 2) (Some 102) Sample.start))
  /\
  wall_clock_run Sample.start
    (snd (confirm_transaction Sample.silent Sample.client 10 Sample.tx None
            (1 # 2) None Sample.start)).
Proof.
  split.
  - apply (mode_selected_by_truth_value Sample.silent Sample.client 10
             Sample.tx None (1 # 2) (Some 102) Sample.start _
             (fst (confirm_transaction Sample.silent Sample.client 10
                     Sample.tx None (1 # 2) (Some 102) Sample.start))).
    + reflexivity.
    + exists 102. split; [reflexivity|discriminate].
  - apply (mode_selected_by_truth_value Sample.silent Sample.client 10
             Sample.tx None (1 # 2) None Sample.start _
             (fst (confirm_transaction Sample.silent Sample.client 10
                     Sample.tx None (1 # 2) None Sample.start))).
    + reflexivity.
    + left. reflexivity.
Defined.

(** C2 as stated fails at a supplied height of zero: the call never asks
    for the block height, runs the wall-clock loop and ends with the
    timeout error. *)
Lemma supplied_zero_height_runs_wall_clock :
  let run :=
    confirm_transaction Sample.silent Sample.client 10 Sample.tx None
                        (1 # 2) (Some 0) Sample.start in
  Some 0 <> @None Z /\
  ~ height_bounded_run Sample.start (snd run) /\
  wall_clock_run Sample.start (snd run) /\
  fst run = Raised (UnconfirmedTxError Sample.tx) /\
  count is_height (log (snd run)) = 0%nat.
Proof.
  intros run.
  assert (Hw : wall_clock_run Sample.start (snd run)).
  { exists [EvTime; EvSleep (1 # 2); EvGetSignatureStatuses Sample.tx; EvTime].
    split; [reflexivity|repeat constructor]. }
  split; [discriminate|]. split; [|split; [exact Hw|split; reflexivity]].
  intros Hh. exact (modes_exclusive _ _ (conj Hh Hw)).
Qed.

(** *** Expiry in the height-bounded mode *)

(** After [k >= 1] polls that saw neither an error nor a status at the
    target, with the height within the limit before each of them and
    beyond it afterwards, the call raises the expiry error and the [k]-th
    height query and its sleep are the last things it did. *)
Lemma expiry_after_polls
    (w : World) (self : Client) (fuel : nat) (tx_sig : Signature)
    (commitment : option Commitment) (sleep_seconds : Q)
    (limit current : Z) (s : State) (k : nat) :
  limit <> 0 ->
  (1 <= k < fuel)%nat ->
  block_height_at w (count is_height (log s)) = RespResult current ->
  (forall j, (j < k)%nat ->
     within limit (observed w current (S (count is_height (log s))) j) = true
     /\ pending (target_rank self commitment)
          (signature_status_at w (count is_poll (log s) + j)) = true) ->
  exceeds limit (observed w current (S (count is_height (log s))) k) = true ->
  confirm_transaction w self fuel tx_sig commitment sleep_seconds
                      (Some limit) s =
  (Raised (TransactionExpiredBlockheightExceededError tx_sig),
   logged (turns (height_turn tx_sig sleep_seconds) k
             ++ [EvGetBlockHeight; EvTime]) s).
Proof.
  intros Hl [Hk Hf] Hcur Hturns Hend.
  rewrite confirm_transaction_height_bounded by exact Hl.
  rewrite Hcur.
  rewrite (height_loop_expiry w tx_sig commitment sleep_seconds
             (target_rank self commitment) k fuel limit current None
             (logged [EvGetBlockHeight; EvTime] s) Hf Hturns Hend).
  rewrite logged_logged.
  destruct k as [|k]; [lia|]. simpl resp_after.
  rewrite loop_exhausted_bound.
  destruct (Hturns k ltac:(lia)) as [_ Hp]. simpl in Hp.
  destruct (signature_status_at w _); [discriminate|]. reflexivity.
Qed.

(** C1, what the code does when the first height read is already beyond
    the limit: the loop body never runs, the [else] clause reads [resp],
    which was never assigned, and the call ends with [UnboundLocalError]
    instead of the expiry error.  No poll is made. *)
Theorem first_height_beyond_limit
    (w : World) (self : Client) (fuel : nat) (tx_sig : Signature)
    (commitment : option Commitment) (sleep_seconds : Q)
    (limit current : Z) (s : State) :
  limit <> 0 ->
  (0 < fuel)%nat ->
  block_height_at w (count is_height (log s)) = RespResult current ->
  current > limit ->
  confirm_transaction w self fuel tx_sig commitment sleep_seconds
                      (Some limit) s =
  (Raised (UnboundLocalError "resp"), logged [EvGetBlockHeight; EvTime] s).
Proof.
  intros Hl Hf Hcur Hgt.
  rewrite confirm_transaction_height_bounded by exact Hl.
  rewrite Hcur. destruct fuel as [|fuel]; [lia|].
  rewrite height_loop_step.
  assert (E : (current <=? limit) = false) by (apply Z.leb_gt; lia).
  rewrite E. reflexivity.
Qed.

Lemma first_height_beyond_limit_witness :
  confirm_transaction Sample.silent Sample.client 10 Sample.tx None (1 # 2)
                      (Some 100) Sample.start =
  (Raised (UnboundLocalError "resp"),
   mkState [EvGetBlockHeight; EvTime] None).
Proof.
  apply (first_height_beyond_limit Sample.silent Sample.client 10 Sample.tx
           None (1 # 2) 100 101 Sample.start).
  - discriminate.
  - lia.
  - reflexivity.
  - reflexivity.
Defined.

(** *** get_fee_for_message *)

(** C8.  Given an uncompiled [Transaction], [get_fee_for_message] raises
    [TransactionUncompiledError] and leaves the state as it was: nothing
    was logged, so no request reached the provider. *)
Theorem uncompiled_transaction_rejected
    (w : World) (txn : Transaction) (commitment : option Commitment)
    (s : State) :
  get_fee_for_message w (IsTransaction txn) commitment s =
    (Raised TransactionUncompiledError, s)
  /\ count is_request
       (log (snd (get_fee_for_message w (IsTransaction txn) commitment s)))
     = count is_request (log s).
Proof.
  split; reflexivity.
Qed.

(** For comparison, a compiled message does reach the provider. *)
Lemma compiled_message_requested
    (w : World) (m : Message) (commitment : option Commitment) (s : State) :
  get_fee_for_message w (IsMessage m) commitment s =
    (Returned (fee_at w (count is_fee (log s))),
     logged [EvGetFeeForMessage] s).
Proof. reflexivity. Qed.

(** *** The wall-clock mode *)

(** A wall-clock loop whose first test succeeds polls at least once. *)
Lemma wall_clock_first_turn
    (w : World) (tx_sig : Signature) (sleep_seconds : Q) (rank : Z)
    (fuel : nat) (timeout : Q) (resp : option StatusResponse)
    (s s' : State) (r : Outcome StatusResponse) :
  (0 < fuel)%nat ->
  Qltb (time_at w (count is_time (log s))) timeout = true ->
  wall_clock_loop w tx_sig sleep_seconds rank fuel timeout resp s = (r, s') ->
  polled s s'.
Proof.
  intros Hf Et Hrun. destruct fuel as [|fuel]; [lia|].
  rewrite wall_clock_loop_step, Et in Hrun.
  destruct (signature_status_at w _) as [e|v].
  - inversion Hrun; subst. red. simpl. lia.
  - destruct (reached rank v).
    + inversion Hrun; subst. red. simpl. lia.
    + apply wall_clock_loop_ending in Hrun; [|exact I].
      destruct Hrun as [[evs [-> _]] _].
      red. rewrite count_logged. simpl. lia.
Qed.

(** The ceiling of the wall-clock mode (no [last_valid_block_height]),
    with the deadline thirty seconds after the reading made on entry:
    - every poll follows a clock reading below the deadline;
    - a polled response that carries an error is surfaced as
      [RPCException];
    - if the clock is below the deadline at the first [k >= 1] loop tests
      and past it at the next, and the [k] polls saw neither an error nor a
      status at the target, the call raises [UnconfirmedTxError] after
      exactly those [k] polls. *)
Lemma wall_clock_ceiling
    (w : World) (self : Client) (fuel : nat) (tx_sig : Signature)
    (commitment : option Commitment) (sleep_seconds : Q)
    (s s' : State) (r : Outcome StatusResponse) :
  let n0 := count is_time (log s) in
  let p0 := count is_poll (log s) in
  let deadline := (time_at w n0 + 30)%Q in
  confirm_transaction w self fuel tx_sig commitment sleep_seconds None s
    = (r, s') ->
  (forall j, (p0 + j < count is_poll (log s'))%nat ->
     (time_at w (S n0 + j) < deadline)%Q)
  /\
  (forall i e, (p0 <= i < count is_poll (log s'))%nat ->
     get_error (signature_status_at w i) = Some e ->
     r = Raised (RPCException e))
  /\
  (forall k, (1 <= k < fuel)%nat ->
     (forall j, (j < k)%nat ->
        (time_at w (S n0 + j) < deadline)%Q /\
        pending (target_rank self commitment)
                (signature_status_at w (p0 + j)) = true) ->
     ~ (time_at w (S n0 + k) < deadline)%Q ->
     r = Raised (UnconfirmedTxError tx_sig) /\
     s' = logged (EvTime :: turns (wall_turn tx_sig sleep_seconds) k
                    ++ [EvTime]) s).
Proof.
  intros n0 p0 deadline Hrun.
  pose proof Hrun as Hloop.
  rewrite confirm_transaction_wall_clock in Hloop by reflexivity.
  fold n0 deadline in Hloop.
  split; [|split].
  - intros j Hj. apply Qltb_lt.
    exact (wall_polls_in_time _ _ _ _ _ _ _ _ _ _ Hloop j Hj).
  - intros i e Hi He.
    pose proof (confirm_transaction_poll_verdict _ _ _ _ _ _ _ _ _ _ Hrun i Hi)
      as Hv.
    unfold poll_verdict in Hv.
    destruct (signature_status_at w i) as [e'|v]; [|discriminate].
    simpl in He. inversion He; subst e'. apply Hv.
  - intros k [Hk Hf] Hturns Hend.
    rewrite (wall_clock_loop_timeout w tx_sig sleep_seconds
               (target_rank self commitment) k fuel deadline None
               (logged [EvTime] s) Hf) in Hloop.
    + rewrite logged_logged in Hloop.
      destruct k as [|k]; [lia|]. simpl resp_after in Hloop.
      rewrite loop_exhausted_bound in Hloop.
      destruct (Hturns k ltac:(lia)) as [_ Hp]. simpl in Hp.
      fold p0 in Hloop.
      destruct (signature_status_at w (p0 + k)); [discriminate|].
      simpl in Hloop. inversion Hloop; subst. split; reflexivity.
    + intros j Hj. destruct (Hturns j Hj) as [Ht Hp].
      split; [apply Qltb_lt; exact Ht|exact Hp].
    + simpl. apply not_true_is_false. intros Ht. apply Hend.
      apply Qltb_lt. exact Ht.
Qed.

(** On a silent node and a clock that advances twenty seconds per
    reading, the call times out after one poll. *)
Example wall_clock_ceiling_after_one_poll :
  let run :=
    confirm_transaction Sample.silent Sample.client 10 Sample.tx None
                        (1 # 2) None Sample.start in
  fst run = Raised (UnconfirmedTxError Sample.tx) /\
  snd run =
    mkState [EvTime; EvSleep (1 # 2); EvGetSignatureStatuses Sample.tx;
             EvTime; EvTime] None.
Proof.
  intros run.
  destruct (wall_clock_ceiling Sample.silent Sample.client 10 Sample.tx None
              (1 # 2) Sample.start (snd run) (fst run) eq_refl)
    as (_ & _ & Htimeout).
  apply (Htimeout 1%nat).
  - lia.
  - intros j Hj. assert (j = 0)%nat by lia. subst j.
    split; reflexivity.
  - intros H. vm_compute in H. discriminate.
Qed.

(** C6, what the code does when the ceiling is exceeded before the first
    poll: the clock is already past the deadline at the first loop test
    (it was set forward, or the process was suspended, for thirty seconds
    or more right after the deadline was computed).  The loop body never
    runs, the [else] clause reads [resp], which was never assigned, and
    the call ends with [UnboundLocalError] instead of
    [UnconfirmedTxError].  The call read the clock twice and did nothing
    else. *)
Theorem deadline_passed_at_first_test
    (w : World) (self : Client) (fuel : nat) (tx_sig : Signature)
    (commitment : option Commitment) (sleep_seconds : Q) (s : State) :
  let n0 := count is_time (log s) in
  (0 < fuel)%nat ->
  ~ (time_at w (S n0) < time_at w n0 + 30)%Q ->
  confirm_transaction w self fuel tx_sig commitment sleep_seconds None s =
  (Raised (UnboundLocalError "resp"), logged [EvTime; EvTime] s).
Proof.
  intros n0 Hf Hpast.
  rewrite confirm_transaction_wall_clock by reflexivity.
  destruct fuel as [|fuel]; [lia|].
  rewrite wall_clock_loop_step. simpl count. fold n0.
  assert (E : Qltb (time_at w (S n0)) (time_at w n0 + 30) = false).
  { apply not_true_is_false. intros Ht. apply Hpast, Qltb_lt. exact Ht. }
  rewrite E. reflexivity.
Qed.

Lemma deadline_passed_at_first_test_witness :
  confirm_transaction Sample.clock_set_forward Sample.client 10 Sample.tx
                      None (1 # 2) None Sample.start =
  (Raised (UnboundLocalError "resp"), mkState [EvTime; EvTime] None).
Proof.
  apply (deadline_passed_at_first_test Sample.clock_set_forward Sample.client
           10 Sample.tx None (1 # 2) Sample.start).
  - lia.
  - intros H. vm_compute in H. discriminate.
Defined.

(** C10, as the code has it.  In the wall-clock mode:
    - when the clock is still below the deadline at the first loop test,
      the call polls at least once;
    - an [RPCException] is raised only at a poll, with the error that poll
      was answered with;
    - a call that ends on a loop test found the clock past the deadline
      there and never raises [RPCException]: the second error check,
      after the loop, never fires; once it has polled, it raises
      [UnconfirmedTxError];
    - a call that has polled raises nothing but [RPCException] and
      [UnconfirmedTxError]. *)
Theorem wall_clock_timeout_is_unconfirmed
    (w : World) (self : Client) (fuel : nat) (tx_sig : Signature)
    (commitment : option Commitment) (sleep_seconds : Q)
    (s s' : State) (r : Outcome StatusResponse) :
  let n0 := count is_time (log s) in
  let deadline := (time_at w n0 + 30)%Q in
  confirm_transaction w self fuel tx_sig commitment sleep_seconds None s
    = (r, s') ->
  (0 < fuel)%nat ->
  ((time_at w (S n0) < deadline)%Q ->
   (count is_poll (log s) < count is_poll (log s'))%nat)
  /\
  (forall e, r = Raised (RPCException e) ->
     last_poll_answered w tx_sig (RespError e) s')
  /\
  (forall older, log s' = EvTime :: older ->
     ~ (time_at w (count is_time older) < deadline)%Q /\
     (forall e, r <> Raised (RPCException e)) /\
     ((count is_poll (log s) < count is_poll (log s'))%nat ->
      r = Raised (UnconfirmedTxError tx_sig)))
  /\
  ((count is_poll (log s) < count is_poll (log s'))%nat ->
   forall x, r = Raised x ->
     (exists e, x = RPCException e) \/ x = UnconfirmedTxError tx_sig).
Proof.
  intros n0 deadline Hrun Hf.
  rewrite confirm_transaction_wall_clock in Hrun by reflexivity.
  fold n0 deadline in Hrun.
  split.
  { intros Hfirst. apply Qltb_lt in Hfirst.
    assert (Hpolled : polled (logged [EvTime] s) s').
    { eapply wall_clock_first_turn; [exact Hf| |exact Hrun]. exact Hfirst. }
    red in Hpolled. simpl in Hpolled. exact Hpolled. }
  apply wall_clock_loop_ending in Hrun; [|exact I].
  destruct Hrun as [_ Hend].
  destruct r as [a|[e|sg|sg| |nm|key]|]; simpl in Hend;
    try contradiction.
  - (* returned *)
    destruct Hend as ([older' [El _]] & _).
    split; [discriminate|]. split; [|discriminate].
    intros older Eo. congruence.
  - (* RPCException *)
    destruct Hend as (Hlast & _).
    split; [intros e' He'; inversion He'; subst; exact Hlast|].
    split; [|intros _ x Hx; inversion Hx; eauto].
    destruct Hlast as [older' [El _]]. intros older Eo. congruence.
  - (* UnconfirmedTxError *)
    destruct Hend as (-> & [older' [El Et]] & _).
    split; [discriminate|]. split; [|intros _ x Hx; inversion Hx; auto].
    intros older Eo. rewrite El in Eo. inversion Eo; subst older'.
    split; [|split; [discriminate|reflexivity]].
    intros Hlt. apply Qltb_lt in Hlt.
    unfold deadline in *. rewrite Et in Hlt. discriminate.
  - (* UnboundLocalError: no poll was made *)
    destruct Hend as (_ & -> & Et). simpl in Et. fold n0 deadline in Et.
    split; [discriminate|]. split; [|simpl; lia].
    intros older Eo. simpl in Eo. inversion Eo; subst older. simpl.
    fold n0. split; [|split; [discriminate|simpl; lia]].
    intros Hlt. apply Qltb_lt in Hlt. rewrite Et in Hlt. discriminate.
  - (* out of fuel *)
    destruct Hend as [[-> _]|[older' El]]; [lia|].
    split; [discriminate|]. split; [|discriminate].
    intros older Eo. congruence.
Qed.

Lemma wall_clock_timeout_is_unconfirmed_witness :
  let run :=
    confirm_transaction Sample.silent Sample.client 10 Sample.tx None
                        (1 # 2) None Sample.start in
  (0 < count is_poll (log (snd run)))%nat /\
  fst run = Raised (UnconfirmedTxError Sample.tx).
Proof.
  intros run.
  destruct (wall_clock_timeout_is_unconfirmed Sample.silent Sample.client 10
              Sample.tx None (1 # 2) Sample.start (snd run) (fst run) eq_refl)
    as (Hpolled & _ & Hlast & _).
  - lia.
  - assert (Hp : (0 < count is_poll (log (snd run)))%nat).
    { apply Hpolled. reflexivity. }
    split; [exact Hp|].
    apply (Hlast [EvSleep (1 # 2); EvGetSignatureStatuses Sample.tx;
                  EvTime; EvTime]).
    + reflexivity.
    + exact Hp.
Defined.

(** C10 as stated fails when the clock is set forward between the reading
    that fixes the deadline and the first loop test: the deadline is not in
    the future at that test, the call makes no poll at all, and what it
    raises is not [UnconfirmedTxError]. *)
Lemma clock_set_forward_skips_polling :
  let w := Sample.clock_set_forward in
  let run :=
    confirm_transaction w Sample.client 10 Sample.tx (Some Confirmed)
                        (1 # 2) None Sample.start in
  ~ (time_at w 1 < time_at w 0 + 30)%Q /\
  count is_poll (log (snd run)) = 0%nat /\
  log (snd run) = [EvTime; EvTime] /\
  fst run <> Raised (UnconfirmedTxError Sample.tx).
Proof.
  intros w run.
  split; [intros H; vm_compute in H; discriminate|].
  split; [reflexivity|]. split; [reflexivity|].
  vm_compute. discriminate.
Qed.

(** ** The submitter *)

Section Submitter.

Variable w : World.
Variable self : Client.
Variable lib : Library.

Lemma count_other (p q : Event -> bool) (evs : list Event) :
  (forall e, p e = true -> q e = false) ->
  Forall (fun e => p e = true) evs ->
  count q evs = 0%nat.
Proof.
  intros Hpq Hall. apply count_none.
  eapply Forall_impl; [|exact Hall]. exact Hpq.
Qed.

Lemma confirm_transaction_frame fuel tx_sig commitment sleep_seconds height
    s r s' :
  confirm_transaction w self fuel tx_sig commitment sleep_seconds height s
    = (r, s') ->
  exists evs, s' = logged evs s /\ Forall (fun e => confirm_event e = true) evs.
Proof.
  intros Hrun.
  destruct (truthy height) eqn:Ht.
  - apply truthy_spec in Ht. destruct Ht as [limit [-> Hl]].
    rewrite confirm_transaction_height_bounded in Hrun by exact Hl.
    destruct (block_height_at w _) as [e|current].
    + inversion Hrun; subst. eexists. split; [reflexivity|].
      repeat constructor.
    + apply height_loop_ending in Hrun; [|exact I].
      destruct Hrun as [[evs [-> Hevs]] _]. rewrite logged_logged.
      eexists. split; [reflexivity|].
      apply Forall_app. split; [|repeat constructor].
      eapply Forall_impl; [|exact Hevs]. intros [] He; simpl in *; congruence.
  - rewrite confirm_transaction_wall_clock in Hrun by exact Ht.
    apply wall_clock_loop_ending in Hrun; [|exact I].
    destruct Hrun as [[evs [-> Hevs]] _]. rewrite logged_logged.
    eexists. split; [reflexivity|].
    apply Forall_app. split; [|repeat constructor].
    eapply Forall_impl; [|exact Hevs]. intros [] He; simpl in *; congruence.
Qed.

(** [send_raw_transaction] with explicit options: one request carrying
    those options, then either the bare response or the confirmation with
    the commitment and the height of those options. *)
Lemma send_raw_transaction_explicit fuel wire o s :
  send_raw_transaction w self lib fuel wire (Some o) s =
  let resp := send_transaction_at w (count is_send (log s)) in
  let sent := logged [EvSendTransaction wire o] s in
  if skip_confirmation o then _post_send resp sent
  else post_send_with_confirm w self fuel resp (preflight_commitment o)
                              (last_valid_block_height o) sent.
Proof.
  unfold send_raw_transaction, bind, make_request. simpl.
  destruct (skip_confirmation o); reflexivity.
Qed.

Lemma post_send_state resp s : snd (_post_send resp s) = s.
Proof. destruct resp; reflexivity. Qed.

Lemma post_send_with_confirm_frame fuel resp conf_comm height s r s' :
  post_send_with_confirm w self fuel resp conf_comm height s = (r, s') ->
  exists evs, s' = logged evs s /\ Forall (fun e => confirm_event e = true) evs.
Proof.
  unfold post_send_with_confirm, bind. destruct resp as [e|tx_sig]; simpl.
  - intros H. inversion H; subst. exists []. rewrite logged_nil. auto.
  - destruct (confirm_transaction w self fuel tx_sig (Some conf_comm) (1 # 2)
                height s) as [r0 s0] eqn:Hc.
    apply confirm_transaction_frame in Hc.
    destruct r0; intros H; inversion H; subst; exact Hc.
Qed.

Lemma send_raw_transaction_frame fuel wire o s r s' :
  send_raw_transaction w self lib fuel wire (Some o) s = (r, s') ->
  exists evs,
    s' = logged (evs ++ [EvSendTransaction wire o]) s /\
    Forall (fun e => confirm_event e = true) evs.
Proof.
  rewrite send_raw_transaction_explicit. simpl.
  destruct (skip_confirmation o).
  - intros H. exists []. split; [|constructor].
    pose proof (post_send_state
                  (send_transaction_at w (count is_send (log s)))
                  (logged [EvSendTransaction wire o] s)) as Hs.
    rewrite H in Hs. simpl in Hs. subst s'. reflexivity.
  - intros H. apply post_send_with_confirm_frame in H.
    destruct H as [evs [-> Hevs]]. rewrite logged_logged. eauto.
Qed.

(** The three ways the blockhash is chosen. *)
Lemma choose_blockhash_supplied b s :
  choose_blockhash w (Some b) s = (Returned (b, None), s).
Proof. reflexivity. Qed.

Lemma choose_blockhash_uncached s :
  blockhash_cache s = None ->
  choose_blockhash w None s =
  (Returned
     (blockhash (latest_blockhash_at w (count is_blockhash (log s))),
      Some (lastValidBlockHeight
              (latest_blockhash_at w (count is_blockhash (log s))))),
   logged [EvGetLatestBlockhash] s).
Proof.
  intros Hc. unfold choose_blockhash. rewrite Hc. reflexivity.
Qed.

Lemma choose_blockhash_cached c s :
  blockhash_cache s = Some c ->
  choose_blockhash w None s =
  match BlockhashCache.get (time_at w (count is_time (log s))) c with
  | Some b => (Returned (b, None), logged [EvCacheGet; EvTime] s)
  | None =>
      (Returned
         (blockhash (latest_blockhash_at w (count is_blockhash (log s))),
          Some (lastValidBlockHeight
                  (latest_blockhash_at w (count is_blockhash (log s))))),
       logged [EvGetLatestBlockhash; EvCacheGet; EvTime] s)
  end.
Proof.
  intros Hc. unfold choose_blockhash. rewrite Hc.
  unfold blockhash_cache_get, bind, time, emit, logged. simpl.
  destruct (BlockhashCache.get _ c); reflexivity.
Qed.

Lemma choose_blockhash_frame recent s :
  exists b captured evs,
    choose_blockhash w recent s = (Returned (b, captured), logged evs s) /\
    Forall (fun e => choose_event e = true) evs.
Proof.
  destruct recent as [b|].
  - exists b, None, []. rewrite logged_nil. split; [reflexivity|constructor].
  - destruct (blockhash_cache s) as [c|] eqn:Hc.
    + rewrite (choose_blockhash_cached c s Hc).
      destruct (BlockhashCache.get _ c) as [b|];
        do 3 eexists; (split; [reflexivity|repeat constructor]).
    + rewrite (choose_blockhash_uncached s Hc).
      do 3 eexists. split; [reflexivity|repeat constructor].
Qed.

(** [send_transaction] up to the dispatch, for explicit options. *)
Lemma send_transaction_dispatch_explicit fuel txn signers o recent s
    b captured s1 :
  choose_blockhash w recent s = (Returned (b, captured), s1) ->
  send_transaction_dispatch w self lib fuel txn signers (Some o) recent s =
  send_raw_transaction w self lib fuel
    (serialize lib (sign lib (set_recent_blockhash txn b) signers))
    (Some o) s1.
Proof.
  intros Hc. unfold send_transaction_dispatch, bind. rewrite Hc. reflexivity.
Qed.

(** The dispatch leaves the cache alone and logs no insertion. *)
Lemma send_transaction_dispatch_frame fuel txn signers opts recent s r s1 :
  send_transaction_dispatch w self lib fuel txn signers opts recent s
    = (r, s1) ->
  blockhash_cache s1 = blockhash_cache s /\
  count is_cache_set (log s1) = count is_cache_set (log s) /\
  count is_send (log s1) = S (count is_send (log s)).
Proof.
  destruct (choose_blockhash_frame recent s) as (b & captured & evs & Hc & Hevs).
  unfold send_transaction_dispatch, bind. rewrite Hc.
  intros Hrun. apply send_raw_transaction_frame in Hrun.
  destruct Hrun as [evs' [-> Hevs']].
  split; [reflexivity|].
  rewrite !count_logged, !count_app. simpl.
  rewrite (count_other confirm_event is_cache_set evs'),
          (count_other choose_event is_cache_set evs),
          (count_other confirm_event is_send evs'),
          (count_other choose_event is_send evs); auto;
    intros []; simpl; congruence.
Qed.

(** What follows the dispatch. *)
Lemma send_transaction_after_dispatch fuel txn signers opts recent s r s1 :
  send_transaction_dispatch w self lib fuel txn signers opts recent s
    = (r, s1) ->
  send_transaction w self lib fuel txn signers opts recent s =
  match r with
  | Returned txn_resp =>
      match blockhash_cache s1 with
      | Some c =>
          let fresh :=
            blockhash (latest_blockhash_at w (count is_blockhash (log s1))) in
          let now := time_at w (count is_time (log s1)) in
          (Returned txn_resp,
           mkState (EvCacheSet fresh false :: EvTime
                      :: EvGetLatestBlockhash :: log s1)
                   (Some (BlockhashCache.set now fresh false c)))
      | None => (Returned txn_resp, s1)
      end
  | Raised e => (Raised e, s1)
  | OutOfFuel => (OutOfFuel, s1)
  end.
Proof.
  intros Hd. unfold send_transaction, bind. rewrite Hd.
  destruct r as [txn_resp|e|]; try reflexivity.
  unfold refresh_cache.
  destruct (blockhash_cache s1) as [c|] eqn:Hc; [|reflexivity].
  unfold bind, get_latest_blockhash, make_request, _process_blockhash_resp,
    bind, blockhash_cache_set, bind, time. simpl. rewrite Hc. reflexivity.
Qed.

End Submitter.

(** The log of a dispatch: the request, followed only by what the
    confirmation does. *)
Lemma send_transaction_dispatch_shape
    (w : World) (self : Client) (lib : Library) (fuel : nat)
    (txn : Transaction) (signers : list Keypair) (opts : option TxOpts)
    (recent : option Blockhash) (s s1 : State) (r : Outcome SendResponse) :
  send_transaction_dispatch w self lib fuel txn signers opts recent s
    = (r, s1) ->
  exists evs wire o older,
    log s1 = evs ++ EvSendTransaction wire o :: older /\
    Forall (fun e => confirm_event e = true) evs /\
    count is_send older = count is_send (log s) /\
    count is_cache_set older = count is_cache_set (log s) /\
    (count is_blockhash (log s) <= count is_blockhash older)%nat.
Proof.
  destruct (choose_blockhash_frame w recent s) as (b & captured & evs & Hc & Hevs).
  unfold send_transaction_dispatch, bind. rewrite Hc.
  intros Hrun. apply send_raw_transaction_frame in Hrun.
  destruct Hrun as [evs' [-> Hevs']].
  do 4 eexists. split; [|split; [exact Hevs'|]].
  - simpl. rewrite <- app_assoc. reflexivity.
  - rewrite !count_app.
    rewrite (count_other choose_event is_send evs),
            (count_other choose_event is_cache_set evs); auto;
      try (intros []; simpl; congruence).
    repeat split; lia.
Qed.

(** C3, as the code has it.  With the cache enabled: when the dispatch
    (the submission and, unless skipped, its confirmation) returns, a fresh
    blockhash is fetched next and put into the cache with
    [used_immediately = False]; when the dispatch raises, the exception
    propagates and the call ends there, without a fetch or an insertion
    after the submission and with the cache as it was. *)
Theorem cache_refreshed_when_dispatch_returns
    (w : World) (self : Client) (lib : Library) (fuel : nat)
    (txn : Transaction) (signers : list Keypair) (opts : option TxOpts)
    (recent : option Blockhash) (c : BlockhashCache.t)
    (s s' : State) (r : Outcome SendResponse) :
  blockhash_cache s = Some c ->
  send_transaction w self lib fuel txn signers opts recent s = (r, s') ->
  match r with
  | Returned _ =>
      exists older,
        log s' = EvCacheSet
                   (blockhash
                      (latest_blockhash_at w (count is_blockhash older)))
                   false
                 :: EvTime :: EvGetLatestBlockhash :: older /\
        count is_send older = S (count is_send (log s)) /\
        blockhash_cache s' =
          Some (BlockhashCache.set
                  (time_at w (count is_time older))
                  (blockhash
                     (latest_blockhash_at w (count is_blockhash older)))
                  false c)
  | _ =>
      blockhash_cache s' = Some c /\
      exists evs wire o older,
        log s' = evs ++ EvSendTransaction wire o :: older /\
        Forall (fun e => confirm_event e = true) evs
  end.
Proof.
  intros Hc Hrun.
  destruct (send_transaction_dispatch w self lib fuel txn signers opts
              recent s) as [r1 s1] eqn:Hd.
  rewrite (send_transaction_after_dispatch _ _ _ _ _ _ _ _ _ _ _ Hd) in Hrun.
  destruct (send_transaction_dispatch_frame _ _ _ _ _ _ _ _ _ _ _ Hd)
    as (Hcache & _ & Hsend).
  rewrite Hc in Hcache.
  destruct (send_transaction_dispatch_shape _ _ _ _ _ _ _ _ _ _ _ Hd)
    as (evs & wire & o & older & Hlog & Hevs & _).
  destruct r1 as [resp|e|].
  - rewrite Hcache in Hrun. inversion Hrun; subst. simpl.
    exists (log s1). auto.
  - inversion Hrun; subst. split; [exact Hcache|]. eauto 6.
  - inversion Hrun; subst. split; [exact Hcache|]. eauto 6.
Qed.

Lemma cache_refreshed_when_dispatch_returns_witness :
  let w := Sample.third_poll_confirmed in
  let run :=
    send_transaction w Sample.client Sample.library
      10 Sample.transfer [Sample.sender] (Some Sample.confirming)
      (Some Sample.own_hash) Sample.cached in
  exists older,
    log (snd run) =
      EvCacheSet (blockhash (latest_blockhash_at w (count is_blockhash older)))
                 false
        :: EvTime :: EvGetLatestBlockhash :: older /\
    count is_send older = 1%nat /\
    blockhash_cache (snd run) =
      Some (BlockhashCache.set
              (time_at w (count is_time older))
              (blockhash (latest_blockhash_at w (count is_blockhash older)))
              false Sample.empty_cache).
Proof.
  intros w run.
  exact (cache_refreshed_when_dispatch_returns w
           Sample.client Sample.library 10 Sample.transfer [Sample.sender]
           (Some Sample.confirming) (Some Sample.own_hash) Sample.empty_cache
           Sample.cached (snd run) (fst run) eq_refl eq_refl).
Defined.

(** C3 as stated fails when the confirmation fails: the transaction was
    dispatched, the second poll is answered with an error, the call raises
    and no blockhash is fetched or inserted. *)
Lemma failed_confirmation_skips_refresh :
  let run :=
    send_transaction Sample.second_poll_refused Sample.client Sample.library
      10 Sample.transfer [Sample.sender] (Some Sample.confirming)
      (Some Sample.own_hash) Sample.cached in
  blockhash_cache Sample.cached <> None /\
  count is_send (log (snd run)) = 1%nat /\
  fst run = Raised (RPCException Sample.refused) /\
  count is_blockhash (log (snd run)) = 0%nat /\
  count is_cache_set (log (snd run)) = 0%nat /\
  blockhash_cache (snd run) = blockhash_cache Sample.cached.
Proof.
  intros run. split; [discriminate|]. repeat split.
Qed.

(** C4.  With the cache enabled and a miss reported by [get], the
    blockhash fetched as a fallback goes into the transaction and the cache
    is not written at that point.  Over the whole call the cache is either
    left as it was (the dispatch raised), or written exactly once, as the
    newest event of the call, after the submission and with the hash of the
    second fetch. *)
Theorem cache_miss_inserts_only_after_dispatch
    (w : World) (self : Client) (lib : Library) (fuel : nat)
    (txn : Transaction) (signers : list Keypair) (opts : option TxOpts)
    (c : BlockhashCache.t) (s s' : State) (r : Outcome SendResponse) :
  let n := count is_blockhash (log s) in
  blockhash_cache s = Some c ->
  BlockhashCache.get (time_at w (count is_time (log s))) c = None ->
  send_transaction w self lib fuel txn signers opts None s = (r, s') ->
  choose_blockhash w None s =
    (Returned (blockhash (latest_blockhash_at w n),
               Some (lastValidBlockHeight (latest_blockhash_at w n))),
     mkState (EvGetLatestBlockhash :: EvCacheGet :: EvTime :: log s) (Some c))
  /\
  (count is_cache_set (log s') = count is_cache_set (log s) /\
   blockhash_cache s' = Some c
   \/
   exists older,
     log s' = EvCacheSet (blockhash (latest_blockhash_at w (S n))) false
              :: EvTime :: EvGetLatestBlockhash :: older /\
     count is_cache_set older = count is_cache_set (log s) /\
     count is_send older = S (count is_send (log s)) /\
     blockhash_cache s' =
       Some (BlockhashCache.set (time_at w (count is_time older))
               (blockhash (latest_blockhash_at w (S n))) false c)).
Proof.
  intros n Hc Hmiss Hrun.
  pose proof (choose_blockhash_cached w c s Hc) as Hchoose.
  rewrite Hmiss in Hchoose. fold n in Hchoose.
  split.
  { rewrite Hchoose. unfold logged. rewrite Hc. reflexivity. }
  destruct (send_transaction_dispatch w self lib fuel txn signers opts
              None s) as [r1 s1] eqn:Hd.
  rewrite (send_transaction_after_dispatch _ _ _ _ _ _ _ _ _ _ _ Hd) in Hrun.
  destruct (send_transaction_dispatch_frame _ _ _ _ _ _ _ _ _ _ _ Hd)
    as (Hcache & Hsets & Hsend).
  rewrite Hc in Hcache.
  assert (Hfetches : count is_blockhash (log s1) = S n).
  { unfold send_transaction_dispatch, bind in Hd. rewrite Hchoose in Hd.
    apply send_raw_transaction_frame in Hd.
    destruct Hd as [evs [-> Hevs]].
    rewrite count_logged, count_app.
    rewrite (count_other confirm_event is_blockhash evs); auto.
    intros []; simpl; congruence. }
  destruct r1 as [resp|e|].
  - rewrite Hcache in Hrun. inversion Hrun; subst. right.
    exists (log s1). rewrite Hfetches. auto.
  - inversion Hrun; subst. left. auto.
  - inversion Hrun; subst. left. auto.
Qed.

Lemma cache_miss_inserts_only_after_dispatch_witness :
  let w := Sample.third_poll_confirmed in
  let run :=
    send_transaction w Sample.client Sample.library 10 Sample.transfer
      [Sample.sender] (Some Sample.confirming) None Sample.cached in
  choose_blockhash w None Sample.cached =
    (Returned ("EALChog1"%string, Some 3090),
     mkState [EvGetLatestBlockhash; EvCacheGet; EvTime]
             (Some Sample.empty_cache))
  /\
  (count is_cache_set (log (snd run)) = 0%nat /\
   blockhash_cache (snd run) = Some Sample.empty_cache
   \/
   exists older,
     log (snd run) = EvCacheSet "7pXsAq3n"%string false
                     :: EvTime :: EvGetLatestBlockhash :: older /\
     count is_cache_set older = 0%nat /\
     count is_send older = 1%nat /\
     blockhash_cache (snd run) =
       Some (BlockhashCache.set (time_at w (count is_time older))
               "7pXsAq3n"%string false Sample.empty_cache)).
Proof.
  intros w run.
  exact (cache_miss_inserts_only_after_dispatch w Sample.client
           Sample.library 10 Sample.transfer [Sample.sender]
           (Some Sample.confirming) Sample.empty_cache Sample.cached
           (snd run) (fst run) eq_refl eq_refl eq_refl).
Defined.

(** C9.  With explicit options [o] the height captured while the
    blockhash was chosen plays no part: the request carries [o], and the
    rest of the dispatch is the confirmation at [o]'s commitment with
    [o]'s [last_valid_block_height] (none when skipped).  So when [o]
    carries no height the confirmation is a wall-clock run, also when the
    blockhash was fetched and a height came with it. *)
Theorem explicit_opts_override_captured_height
    (w : World) (self : Client) (lib : Library) (fuel : nat)
    (txn : Transaction) (signers : list Keypair) (o : TxOpts)
    (recent : option Blockhash) (s : State) :
  exists b captured s1,
    choose_blockhash w recent s = (Returned (b, captured), s1) /\
    (recent = None -> blockhash_cache s = None ->
     captured = Some (lastValidBlockHeight
                        (latest_blockhash_at w (count is_blockhash (log s)))))
    /\
    let wire := serialize lib (sign lib (set_recent_blockhash txn b) signers) in
    let resp := send_transaction_at w (count is_send (log s1)) in
    let sent := logged [EvSendTransaction wire o] s1 in
    send_transaction_dispatch w self lib fuel txn signers (Some o) recent s =
      (if skip_confirmation o then _post_send resp sent
       else post_send_with_confirm w self fuel resp (preflight_commitment o)
                                   (last_valid_block_height o) sent)
    /\
    (forall tx_sig r s',
       resp = RespResult tx_sig ->
       skip_confirmation o = false ->
       send_transaction_dispatch w self lib fuel txn signers (Some o) recent s
         = (r, s') ->
       (exists r0,
          confirm_transaction w self fuel tx_sig
            (Some (preflight_commitment o)) (1 # 2)
            (last_valid_block_height o) sent = (r0, s')) /\
       (last_valid_block_height o = None -> wall_clock_run sent s')).
Proof.
  destruct (choose_blockhash_frame w recent s)
    as (b & captured & evs & Hchoose & _).
  exists b, captured, (logged evs s).
  split; [exact Hchoose|]. split.
  { intros -> Hn. rewrite (choose_blockhash_uncached w s Hn) in Hchoose.
    inversion Hchoose. reflexivity. }
  cbv zeta.
  assert (Hd : send_transaction_dispatch w self lib fuel txn signers (Some o)
                 recent s =
               (if skip_confirmation o
                then _post_send
                       (send_transaction_at w
                          (count is_send (log (logged evs s))))
                       (logged [EvSendTransaction
                                  (serialize lib
                                     (sign lib (set_recent_blockhash txn b)
                                           signers)) o] (logged evs s))
                else post_send_with_confirm w self fuel
                       (send_transaction_at w
                          (count is_send (log (logged evs s))))
                       (preflight_commitment o) (last_valid_block_height o)
                       (logged [EvSendTransaction
                                  (serialize lib
                                     (sign lib (set_recent_blockhash txn b)
                                           signers)) o] (logged evs s)))).
  { rewrite (send_transaction_dispatch_explicit _ _ _ _ _ _ _ _ _ _ _ _
               Hchoose).
    apply send_raw_transaction_explicit. }
  split; [exact Hd|].
  intros tx_sig r s' Hresp Hskip Hrun.
  rewrite Hd, Hskip, Hresp in Hrun.
  unfold post_send_with_confirm, bind in Hrun. simpl in Hrun.
  destruct (confirm_transaction w self fuel tx_sig
              (Some (preflight_commitment o)) (1 # 2)
              (last_valid_block_height o) _) as [r0 s0] eqn:Hconf.
  assert (s0 = s') by (destruct r0; inversion Hrun; reflexivity). subst s0.
  split; [exists r0; reflexivity|].
  intros Hnone. rewrite Hnone in Hconf.
  eapply confirm_transaction_wall_clock_run; [|exact Hconf]. reflexivity.
Qed.

Lemma explicit_opts_override_captured_height_witness :
  let w := Sample.third_poll_confirmed in
  let run :=
    send_transaction_dispatch w Sample.client Sample.library 10
      Sample.transfer [Sample.sender] (Some Sample.confirming) None
      Sample.start in
  wall_clock_run
    (mkState [EvSendTransaction "transfer 1000 lamports" Sample.confirming;
              EvGetLatestBlockhash] None)
    (snd run).
Proof.
  intros w run.
  destruct (explicit_opts_override_captured_height w Sample.client
              Sample.library 10 Sample.transfer [Sample.sender]
              Sample.confirming None Sample.start)
    as (b & captured & s1 & Hchoose & _ & _ & Hconf).
  inversion Hchoose; subst b captured s1.
  apply (Hconf Sample.tx (fst run) (snd run)); reflexivity.
Defined.

(** * Further properties of the poller *)

Section Schedules.

Variable w : World.
Variable tx_sig : Signature.
Variable commitment : option Commitment.
Variable sleep_seconds : Q.
Variable commitment_rank : Z.

Local Abbreviation wall :=
  (wall_clock_loop w tx_sig sleep_seconds commitment_rank).
Local Abbreviation high :=
  (height_loop w tx_sig commitment sleep_seconds commitment_rank).
Local Abbreviation pending := (pending commitment_rank).
Local Abbreviation wall_turn := (wall_turn tx_sig sleep_seconds).
Local Abbreviation height_turn := (height_turn tx_sig sleep_seconds).
Local Abbreviation observed := (observed w).

(** A poll that is not pending ends the wall-clock loop at once. *)
Lemma wall_clock_loop_settled k : forall fuel timeout resp s,
  (k < fuel)%nat ->
  (forall j, (j < k)%nat ->
     pending (signature_status_at w (count is_poll (log s) + j)) = true) ->
  (forall j, (j <= k)%nat ->
     Qltb (time_at w (count is_time (log s) + j)) timeout = true) ->
  pending (signature_status_at w (count is_poll (log s) + k)) = false ->
  wall fuel timeout resp s =
  (settled (signature_status_at w (count is_poll (log s) + k)),
   logged (EvGetSignatureStatuses tx_sig :: EvTime :: turns wall_turn k) s).
Proof.
  induction k as [|k IH]; intros fuel timeout resp s Hf Hpend Htime Hlast;
    (destruct fuel as [|fuel]; [lia|]); rewrite wall_clock_loop_step;
    pose proof (Htime 0%nat ltac:(lia)) as Ht; rewrite Nat.add_0_r in Ht;
    rewrite Ht.
  - rewrite Nat.add_0_r in *.
    destruct (signature_status_at w (count is_poll (log s))) as [e|v];
      [reflexivity|].
    simpl in Hlast. apply negb_false_iff in Hlast. rewrite Hlast. reflexivity.
  - pose proof (Hpend 0%nat ltac:(lia)) as Hp. rewrite Nat.add_0_r in Hp.
    destruct (signature_status_at w (count is_poll (log s))) as [e|v];
      [discriminate|].
    simpl in Hp. apply negb_true_iff in Hp. rewrite Hp.
    rewrite (IH fuel timeout); [| lia | | |]; simpl count.
    + rewrite logged_logged, Nat.add_succ_r. simpl. reflexivity.
    + intros j Hj. specialize (Hpend (S j) ltac:(lia)).
      rewrite Nat.add_succ_r in Hpend. exact Hpend.
    + intros j Hj. specialize (Htime (S j) ltac:(lia)).
      rewrite Nat.add_succ_r in Htime. exact Htime.
    + rewrite Nat.add_succ_r in Hlast. exact Hlast.
Qed.

(** The same for the height-bounded loop. *)
Lemma height_loop_settled k : forall fuel limit current resp s,
  (k < fuel)%nat ->
  (forall j, (j < k)%nat ->
     pending (signature_status_at w (count is_poll (log s) + j)) = true) ->
  (forall j, (j <= k)%nat ->
     within limit (observed current (count is_height (log s)) j) = true) ->
  pending (signature_status_at w (count is_poll (log s) + k)) = false ->
  high fuel limit current resp s =
  (settled (signature_status_at w (count is_poll (log s) + k)),
   logged (EvGetSignatureStatuses tx_sig :: turns height_turn k) s).
Proof.
  induction k as [|k IH]; intros fuel limit current resp s Hf Hpend Hin Hlast;
    (destruct fuel as [|fuel]; [lia|]); rewrite height_loop_step;
    pose proof (Hin 0%nat ltac:(lia)) as Ht; simpl in Ht; rewrite Ht.
  - rewrite Nat.add_0_r in *.
    destruct (signature_status_at w (count is_poll (log s))) as [e|v];
      [reflexivity|].
    simpl in Hlast. apply negb_false_iff in Hlast. rewrite Hlast. reflexivity.
  - pose proof (Hpend 0%nat ltac:(lia)) as Hp. rewrite Nat.add_0_r in Hp.
    destruct (signature_status_at w (count is_poll (log s))) as [e|v];
      [discriminate|].
    simpl in Hp. apply negb_true_iff in Hp. rewrite Hp.
    pose proof (Hin 1%nat ltac:(lia)) as Hn. simpl in Hn.
    rewrite Nat.add_0_r in Hn.
    destruct (block_height_at w (count is_height (log s))) as [e|c] eqn:Ec;
      [discriminate|].
    rewrite (IH fuel limit c); [| lia | | |]; simpl count.
    + rewrite logged_logged, Nat.add_succ_r. simpl. reflexivity.
    + intros j Hj. specialize (Hpend (S j) ltac:(lia)).
      rewrite Nat.add_succ_r in Hpend. exact Hpend.
    + intros j Hj. specialize (Hin (S j) ltac:(lia)).
      destruct j as [|j]; simpl in *.
      * rewrite Nat.add_0_r, Ec in Hin. exact Hin.
      * rewrite Nat.add_succ_r in Hin. exact Hin.
    + rewrite Nat.add_succ_r in Hlast. exact Hlast.
Qed.

(** While the height stays within the limit and the polls stay pending,
    the height-bounded loop goes on: it uses up any fuel, one poll per
    turn. *)
Lemma height_loop_stalls fuel : forall limit current resp s,
  current <= limit ->
  (forall j, within limit
               (block_height_at w (count is_height (log s) + j)) = true) ->
  (forall j, pending (signature_status_at w (count is_poll (log s) + j))
             = true) ->
  fst (high fuel limit current resp s) = OutOfFuel /\
  count is_poll (log (snd (high fuel limit current resp s)))
    = (count is_poll (log s) + fuel)%nat.
Proof.
  induction fuel as [|fuel IH]; intros limit current resp s Hc Hin Hpend.
  - simpl. split; [reflexivity|lia].
  - rewrite height_loop_step.
    apply Z.leb_le in Hc. rewrite Hc.
    pose proof (Hpend 0%nat) as Hp. rewrite Nat.add_0_r in Hp.
    destruct (signature_status_at w (count is_poll (log s))) as [e|v];
      [discriminate|].
    simpl in Hp. apply negb_true_iff in Hp. rewrite Hp.
    pose proof (Hin 0%nat) as Hh. rewrite Nat.add_0_r in Hh.
    destruct (block_height_at w (count is_height (log s))) as [e|c];
      [discriminate|].
    simpl in Hh. apply Z.leb_le in Hh.
    destruct (IH limit c (Some (RespResult v))
                (logged [EvSleep sleep_seconds; EvGetBlockHeight;
                         EvGetSignatureStatuses tx_sig] s) Hh) as [H1 H2].
    + intros j. simpl count. specialize (Hin (S j)).
      rewrite Nat.add_succ_r in Hin. exact Hin.
    + intros j. simpl count. specialize (Hpend (S j)).
      rewrite Nat.add_succ_r in Hpend. exact Hpend.
    + split; [exact H1|]. rewrite H2. simpl. lia.
Qed.

(** A height query of the loop that is answered with an error ends the
    call with [KeyError]. *)
Lemma height_loop_query_error fuel : forall limit current resp s r s',
  high fuel limit current resp s = (r, s') ->
  forall i e,
    (count is_height (log s) <= i < count is_height (log s'))%nat ->
    block_height_at w i = RespError e ->
    r = Raised (KeyError "result") /\
    count is_height (log s') = S i /\
    exists older, log s' = EvGetBlockHeight :: older.
Proof.
  induction fuel as [|fuel IH]; intros limit current resp s r s' Hrun i e Hi He.
  - inversion Hrun; subst. lia.
  - rewrite height_loop_step in Hrun.
    destruct (current <=? limit).
    + destruct (signature_status_at w (count is_poll (log s))) as [e'|v].
      * inversion Hrun; subst. simpl in Hi. lia.
      * destruct (reached commitment_rank v).
        -- inversion Hrun; subst. simpl in Hi. lia.
        -- destruct (block_height_at w (count is_height (log s)))
             as [e'|c] eqn:Ec.
           ++ inversion Hrun; subst. simpl in Hi.
              assert (i = count is_height (log s)) by lia. subst i.
              simpl. eauto.
           ++ apply (IH _ _ _ _ _ _ Hrun i e); [|exact He].
              simpl. destruct (Nat.eq_dec i (count is_height (log s)));
                [subst; congruence|lia].
    + pose proof (loop_exhausted_state resp
                    (TransactionExpiredBlockheightExceededError tx_sig) s)
        as Hs.
      rewrite Hrun in Hs. simpl in Hs. subst s'. lia.
Qed.

(** Every poll of the height-bounded loop follows a height within the
    limit. *)
Lemma height_polls_within fuel : forall limit current resp s r s',
  high fuel limit current resp s = (r, s') ->
  forall j, (count is_poll (log s) + j < count is_poll (log s'))%nat ->
  within limit (observed current (count is_height (log s)) j) = true.
Proof.
  induction fuel as [|fuel IH]; intros limit current resp s r s' Hrun j Hj.
  - inversion Hrun; subst. lia.
  - rewrite height_loop_step in Hrun.
    destruct (current <=? limit) eqn:Et.
    + destruct (signature_status_at w (count is_poll (log s))) as [e|v].
      * inversion Hrun; subst. simpl in Hj.
        assert (j = 0)%nat by lia. subst j. exact Et.
      * destruct (reached commitment_rank v).
        -- inversion Hrun; subst. simpl in Hj.
           assert (j = 0)%nat by lia. subst j. exact Et.
        -- destruct (block_height_at w (count is_height (log s)))
             as [e|c] eqn:Ec.
           ++ inversion Hrun; subst. simpl in Hj.
              assert (j = 0)%nat by lia. subst j. exact Et.
           ++ destruct j as [|j]; [exact Et|].
              specialize (IH _ _ _ _ _ _ Hrun j). simpl count in IH.
              assert (Hw : within limit
                             (observed c (S (count is_height (log s))) j)
                           = true) by (apply IH; lia).
              destruct j as [|j]; simpl in *.
              ** rewrite Nat.add_0_r, Ec. exact Hw.
              ** rewrite Nat.add_succ_r. exact Hw.
    + pose proof (loop_exhausted_state resp
                    (TransactionExpiredBlockheightExceededError tx_sig) s)
        as Hs.
      rewrite Hrun in Hs. simpl in Hs. subst s'. lia.
Qed.

End Schedules.

Section Polling.

Variable w : World.
Variable self : Client.

(** The heights seen by the loop of a call whose first height query had
    index [h0]. *)
Lemma observed_from_entry (current : Z) (h0 j : nat) :
  block_height_at w h0 = RespResult current ->
  observed w current (S h0) j = block_height_at w (h0 + j).
Proof.
  intros Hc. destruct j as [|j]; simpl.
  - rewrite Nat.add_0_r. symmetry. exact Hc.
  - rewrite Nat.add_succ_r. reflexivity.
Qed.

Lemma within_result limit a :
  within limit a = true -> exists c, a = RespResult c /\ c <= limit.
Proof.
  destruct a as [e|c]; simpl; [discriminate|].
  intros H. apply Z.leb_le in H. eauto.
Qed.

(** How a call can end, in either mode. *)
Lemma confirm_transaction_ending fuel tx_sig commitment sleep_seconds
    height s r s' :
  confirm_transaction w self fuel tx_sig commitment sleep_seconds height s
    = (r, s') ->
  match r with
  | Returned a =>
      last_poll_answered w tx_sig a s' /\
      pending (target_rank self commitment) a = false /\
      get_error a = None /\ polled s s'
  | Raised (RPCException e) =>
      last_poll_answered w tx_sig (RespError e) s' /\ polled s s'
  | Raised (UnconfirmedTxError sg) =>
      sg = tx_sig /\ truthy height = false /\ polled s s'
  | Raised (TransactionExpiredBlockheightExceededError sg) =>
      sg = tx_sig /\ truthy height = true /\ polled s s'
  | Raised (KeyError _) =>
      truthy height = true /\
      exists older e, log s' = EvGetBlockHeight :: older /\
                      block_height_at w (count is_height older) = RespError e
  | Raised (UnboundLocalError _) =>
      count is_poll (log s') = count is_poll (log s)
  | Raised TransactionUncompiledError => False
  | OutOfFuel => True
  end.
Proof.
  intros Hrun.
  destruct (truthy height) eqn:Ht.
  - apply truthy_spec in Ht. destruct Ht as [limit [-> Hl]].
    rewrite confirm_transaction_height_bounded in Hrun by exact Hl.
    destruct (block_height_at w (count is_height (log s))) as [e|current]
      eqn:Ec.
    + inversion Hrun; subst. simpl. split; [reflexivity|].
      exists (EvTime :: log s), e. auto.
    + apply height_loop_ending in Hrun; [|exact I].
      destruct Hrun as [_ Hend].
      destruct r as [a|[e|sg|sg| |nm|key]|]; simpl in Hend; auto;
        try contradiction.
      * destruct Hend as (-> & Hp).
        repeat split. exact (Hp eq_refl).
      * destruct Hend as (_ & -> & _). reflexivity.
      * destruct Hend as (_ & Hk). auto.
  - rewrite confirm_transaction_wall_clock in Hrun by exact Ht.
    apply wall_clock_loop_ending in Hrun; [|exact I].
    destruct Hrun as [_ Hend].
    destruct r as [a|[e|sg|sg| |nm|key]|]; simpl in Hend; auto;
      try contradiction.
    + destruct Hend as (-> & _ & Hp).
      repeat split. exact (Hp eq_refl).
    + destruct Hend as (_ & -> & _). reflexivity.
Qed.

End Polling.

(** X1.  Height-bounded mode, expiry: when the block height is within the
    limit at the first [k >= 1] loop tests and beyond it at the next, and
    the [k] polls saw neither an error nor a status at the target, the call
    raises [TransactionExpiredBlockheightExceededError] after exactly [k]
    polls, the last height query and its sleep being the last things it
    did. *)
Theorem height_bounded_expires_after_polls
    (w : World) (self : Client) (fuel : nat) (tx_sig : Signature)
    (commitment : option Commitment) (sleep_seconds : Q)
    (limit : Z) (s : State) (k : nat) :
  let h0 := count is_height (log s) in
  let p0 := count is_poll (log s) in
  limit <> 0 ->
  (1 <= k < fuel)%nat ->
  (forall j, (j < k)%nat ->
     within limit (block_height_at w (h0 + j)) = true /\
     pending (target_rank self commitment)
             (signature_status_at w (p0 + j)) = true) ->
  exceeds limit (block_height_at w (h0 + k)) = true ->
  confirm_transaction w self fuel tx_sig commitment sleep_seconds
                      (Some limit) s =
  (Raised (TransactionExpiredBlockheightExceededError tx_sig),
   logged (turns (height_turn tx_sig sleep_seconds) k
             ++ [EvGetBlockHeight; EvTime]) s).
Proof.
  intros h0 p0 Hl Hk Hturns Hend. subst h0 p0.
  destruct (Hturns 0%nat ltac:(lia)) as [H0 _].
  apply within_result in H0. destruct H0 as [current [Hc _]].
  rewrite Nat.add_0_r in Hc.
  apply (expiry_after_polls w self fuel tx_sig commitment sleep_seconds
           limit current s k Hl Hk Hc).
  - intros j Hj. rewrite (observed_from_entry w current _ j Hc).
    exact (Hturns j Hj).
  - rewrite (observed_from_entry w current _ k Hc). exact Hend.
Qed.

Lemma height_bounded_expires_after_polls_witness :
  confirm_transaction Sample.silent Sample.client 10 Sample.tx None (1 # 2)
                      (Some 102) Sample.start =
  (Raised (TransactionExpiredBlockheightExceededError Sample.tx),
   logged (turns (height_turn Sample.tx (1 # 2)) 2
             ++ [EvGetBlockHeight; EvTime]) Sample.start).
Proof.
  apply (height_bounded_expires_after_polls Sample.silent Sample.client 10
           Sample.tx None (1 # 2) 102 Sample.start 2).
  - discriminate.
  - lia.
  - intros j Hj.
    assert (Hc : j = 0%nat \/ j = 1%nat) by lia.
    destruct Hc as [-> | ->]; split; reflexivity.
  - reflexivity.
Defined.

(** X2.  Height-bounded mode, settlement: when the height is within the
    limit at the first [k + 1] loop tests, the first [k] polls are
    pending and poll [k] is not, the call ends right after that poll, after
    exactly [k + 1] polls: it returns the response if it carries a status
    at the target, and raises [RPCException] if it carries an error. *)
Theorem height_bounded_settles_at_poll
    (w : World) (self : Client) (fuel : nat) (tx_sig : Signature)
    (commitment : option Commitment) (sleep_seconds : Q)
    (limit : Z) (s : State) (k : nat) :
  let h0 := count is_height (log s) in
  let p0 := count is_poll (log s) in
  limit <> 0 ->
  (k < fuel)%nat ->
  (forall j, (j <= k)%nat ->
     within limit (block_height_at w (h0 + j)) = true) ->
  (forall j, (j < k)%nat ->
     pending (target_rank self commitment)
             (signature_status_at w (p0 + j)) = true) ->
  pending (target_rank self commitment) (signature_status_at w (p0 + k))
    = false ->
  confirm_transaction w self fuel tx_sig commitment sleep_seconds
                      (Some limit) s =
  (settled (signature_status_at w (p0 + k)),
   logged (EvGetSignatureStatuses tx_sig
             :: turns (height_turn tx_sig sleep_seconds) k
             ++ [EvGetBlockHeight; EvTime]) s).
Proof.
  intros h0 p0 Hl Hf Hin Hpend Hlast. subst h0 p0.
  pose proof (Hin 0%nat ltac:(lia)) as H0.
  apply within_result in H0. destruct H0 as [current [Hc _]].
  rewrite Nat.add_0_r in Hc.
  rewrite confirm_transaction_height_bounded by exact Hl.
  rewrite Hc.
  rewrite (height_loop_settled w tx_sig commitment sleep_seconds
             (target_rank self commitment) k fuel limit current None
             (logged [EvGetBlockHeight; EvTime] s) Hf).
  - rewrite logged_logged. reflexivity.
  - exact Hpend.
  - intros j Hj. simpl count.
    rewrite (observed_from_entry w current _ j Hc). exact (Hin j Hj).
  - exact Hlast.
Qed.

Lemma height_bounded_settles_at_poll_witness :
  confirm_transaction Sample.third_poll_confirmed Sample.client 10 Sample.tx
                      (Some Confirmed) (1 # 2) (Some 100) Sample.start =
  (Returned (Sample.status Confirmed),
   logged (EvGetSignatureStatuses Sample.tx
             :: turns (height_turn Sample.tx (1 # 2)) 2
             ++ [EvGetBlockHeight; EvTime]) Sample.start).
Proof.
  apply (height_bounded_settles_at_poll Sample.third_poll_confirmed
           Sample.client 10 Sample.tx (Some Confirmed) (1 # 2) 100
           Sample.start 2).
  - discriminate.
  - lia.
  - intros j Hj.
    assert (Hc : j = 0%nat \/ j = 1%nat \/ j = 2%nat) by lia.
    destruct Hc as [-> | [-> | ->]]; reflexivity.
  - intros j Hj.
    assert (Hc : j = 0%nat \/ j = 1%nat) by lia.
    destruct Hc as [-> | ->]; reflexivity.
  - reflexivity.
Defined.

(** X3.  Wall-clock mode, settlement: when the clock is below the
    deadline at the first [k + 1] loop tests, the first [k] polls are
    pending and poll [k] is not, the call ends right after that poll, after
    exactly [k + 1] polls and [k] sleeps: it returns the response if it
    carries a status at the target, and raises [RPCException] if it
    carries an error. *)
Theorem wall_clock_settles_at_poll
    (w : World) (self : Client) (fuel : nat) (tx_sig : Signature)
    (commitment : option Commitment) (sleep_seconds : Q)
    (height : option Z) (s : State) (k : nat) :
  let n0 := count is_time (log s) in
  let p0 := count is_poll (log s) in
  let deadline := (time_at w n0 + 30)%Q in
  truthy height = false ->
  (k < fuel)%nat ->
  (forall j, (j <= k)%nat -> (time_at w (S n0 + j) < deadline)%Q) ->
  (forall j, (j < k)%nat ->
     pending (target_rank self commitment)
             (signature_status_at w (p0 + j)) = true) ->
  pending (target_rank self commitment) (signature_status_at w (p0 + k))
    = false ->
  confirm_transaction w self fuel tx_sig commitment sleep_seconds height s =
  (settled (signature_status_at w (p0 + k)),
   logged (EvGetSignatureStatuses tx_sig :: EvTime
             :: turns (wall_turn tx_sig sleep_seconds) k
             ++ [EvTime]) s).
Proof.
  intros n0 p0 deadline Ht Hf Htime Hpend Hlast. subst n0 p0 deadline.
  rewrite confirm_transaction_wall_clock by exact Ht.
  rewrite (wall_clock_loop_settled w tx_sig sleep_seconds
             (target_rank self commitment) k fuel _ None
             (logged [EvTime] s) Hf).
  - rewrite logged_logged. reflexivity.
  - exact Hpend.
  - intros j Hj. apply Qltb_lt. exact (Htime j Hj).
  - exact Hlast.
Qed.

Lemma wall_clock_settles_at_poll_witness :
  confirm_transaction Sample.second_poll_refused Sample.client 10 Sample.tx
                      (Some Confirmed) (1 # 2) None Sample.start =
  (Raised (RPCException Sample.refused),
   logged (EvGetSignatureStatuses Sample.tx :: EvTime
             :: turns (wall_turn Sample.tx (1 # 2)) 1
             ++ [EvTime]) Sample.start).
Proof.
  apply (wall_clock_settles_at_poll Sample.second_poll_refused Sample.client
           10 Sample.tx (Some Confirmed) (1 # 2) None Sample.start 1).
  - reflexivity.
  - lia.
  - intros j Hj.
    assert (Hc : j = 0%nat \/ j = 1%nat) by lia.
    destruct Hc as [-> | ->]; reflexivity.
  - intros j Hj. assert (j = 0)%nat by lia. subst j. reflexivity.
  - reflexivity.
Defined.

(** X4.  What [confirm_transaction] returns: a returned response never
    carries an error or a null status; it carries a status whose rank is at
    least the target's, and it is the answer to the last poll the call
    made, which is also the last thing the call did. *)
Theorem returned_response_is_confirmed
    (w : World) (self : Client) (fuel : nat) (tx_sig : Signature)
    (commitment : option Commitment) (sleep_seconds : Q)
    (height : option Z) (s s' : State) (a : StatusResponse) :
  confirm_transaction w self fuel tx_sig commitment sleep_seconds height s
    = (Returned a, s') ->
  (exists st,
     a = RespResult (Some st) /\
     COMMITMENT_RANKS (confirmationStatus st)
       >= COMMITMENT_RANKS (target_commitment self commitment)) /\
  last_poll_answered w tx_sig a s' /\
  (count is_poll (log s) < count is_poll (log s'))%nat.
Proof.
  intros Hrun. apply confirm_transaction_ending in Hrun.
  destruct Hrun as (Hlast & Hp & He & Hpolled).
  split; [|split; [exact Hlast|exact Hpolled]].
  destruct a as [e|[st|]]; simpl in *; try discriminate.
  exists st. split; [reflexivity|].
  apply negb_false_iff in Hp. unfold target_rank in Hp.
  apply Z.geb_le in Hp. lia.
Qed.

Lemma returned_response_is_confirmed_witness :
  (exists st,
     Sample.status Confirmed = RespResult (Some st) /\
     COMMITMENT_RANKS (confirmationStatus st)
       >= COMMITMENT_RANKS
            (target_commitment Sample.client (Some Processed))) /\
  last_poll_answered Sample.third_poll_confirmed Sample.tx
    (Sample.status Confirmed)
    (snd (confirm_transaction Sample.third_poll_confirmed Sample.client 10
            Sample.tx (Some Processed) (1 # 2) None Sample.start)) /\
  (count is_poll (log Sample.start)
   < count is_poll
       (log (snd (confirm_transaction Sample.third_poll_confirmed
                    Sample.client 10 Sample.tx (Some Processed) (1 # 2)
                    None Sample.start))))%nat.
Proof.
  apply (returned_response_is_confirmed Sample.third_poll_confirmed
           Sample.client 10 Sample.tx (Some Processed) (1 # 2) None
           Sample.start).
  reflexivity.
Defined.

(** X5.  Which mode raises what.  When [confirm_transaction] raises
    - [RPCException], the last thing it did was a poll, and the exception
      carries the error that poll was answered with;
    - [UnconfirmedTxError], the call ran by wall clock and had polled at
      least once;
    - [TransactionExpiredBlockheightExceededError], the call was
      height-bounded and had polled at least once;
    - [UnboundLocalError], the call had not polled at all. *)
Theorem raised_exceptions_by_mode
    (w : World) (self : Client) (fuel : nat) (tx_sig : Signature)
    (commitment : option Commitment) (sleep_seconds : Q)
    (height : option Z) (s s' : State) (x : Exception) :
  confirm_transaction w self fuel tx_sig commitment sleep_seconds height s
    = (Raised x, s') ->
  (forall e, x = RPCException e ->
     last_poll_answered w tx_sig (RespError e) s')
  /\
  (forall sg, x = UnconfirmedTxError sg ->
     sg = tx_sig /\ truthy height = false /\
     (count is_poll (log s) < count is_poll (log s'))%nat)
  /\
  (forall sg, x = TransactionExpiredBlockheightExceededError sg ->
     sg = tx_sig /\ truthy height = true /\
     (count is_poll (log s) < count is_poll (log s'))%nat)
  /\
  (forall name, x = UnboundLocalError name ->
     count is_poll (log s') = count is_poll (log s)).
Proof.
  intros Hrun. apply confirm_transaction_ending in Hrun.
  split; [|split; [|split]].
  - intros e ->. apply Hrun.
  - intros sg ->. exact Hrun.
  - intros sg ->. exact Hrun.
  - intros name ->. exact Hrun.
Qed.

Lemma raised_exceptions_by_mode_witness :
  let s' :=
    snd (confirm_transaction Sample.silent Sample.client 10 Sample.tx None
           (1 # 2) None Sample.start) in
  (forall e, UnconfirmedTxError Sample.tx = RPCException e ->
     last_poll_answered Sample.silent Sample.tx (RespError e) s')
  /\
  (forall sg, UnconfirmedTxError Sample.tx = UnconfirmedTxError sg ->
     sg = Sample.tx /\ truthy None = false /\
     (count is_poll (log Sample.start) < count is_poll (log s'))%nat)
  /\
  (forall sg,
     UnconfirmedTxError Sample.tx
       = TransactionExpiredBlockheightExceededError sg ->
     sg = Sample.tx /\ truthy None = true /\
     (count is_poll (log Sample.start) < count is_poll (log s'))%nat)
  /\
  (forall name, UnconfirmedTxError Sample.tx = UnboundLocalError name ->
     count is_poll (log s') = count is_poll (log Sample.start)).
Proof.
  intros s'.
  apply (raised_exceptions_by_mode Sample.silent Sample.client 10 Sample.tx
           None (1 # 2) None Sample.start s' (UnconfirmedTxError Sample.tx)).
  reflexivity.
Defined.

(** X6.  Height-bounded mode, a failed height query: when the node
    answers a block height request of the call with an error, the call
    subscripts the missing ["result"] and ends with [KeyError] right at
    that query; the error object of the node is not surfaced as
    [RPCException]. *)
Theorem height_error_raises_key_error
    (w : World) (self : Client) (fuel : nat) (tx_sig : Signature)
    (commitment : option Commitment) (sleep_seconds : Q)
    (height : option Z) (s s' : State) (r : Outcome StatusResponse)
    (i : nat) (e : RPCError) :
  confirm_transaction w self fuel tx_sig commitment sleep_seconds height s
    = (r, s') ->
  (count is_height (log s) <= i < count is_height (log s'))%nat ->
  block_height_at w i = RespError e ->
  r = Raised (KeyError "result") /\
  count is_height (log s') = S i /\
  exists older, log s' = EvGetBlockHeight :: older.
Proof.
  intros Hrun Hi He.
  destruct (truthy height) eqn:Ht.
  - apply truthy_spec in Ht. destruct Ht as [limit [-> Hl]].
    rewrite confirm_transaction_height_bounded in Hrun by exact Hl.
    destruct (block_height_at w (count is_height (log s))) as [e0|current]
      eqn:Ec.
    + inversion Hrun; subst. simpl in Hi.
      assert (i = count is_height (log s)) by lia. subst i.
      simpl. eauto.
    + apply (height_loop_query_error _ _ _ _ _ _ _ _ _ _ _ _ Hrun i e);
        [|exact He].
      simpl. destruct (Nat.eq_dec i (count is_height (log s)));
        [subst; congruence|lia].
  - rewrite confirm_transaction_wall_clock in Hrun by exact Ht.
    apply wall_clock_loop_ending in Hrun; [|exact I].
    destruct Hrun as [[evs [-> Hevs]] _].
    rewrite count_logged in Hi. simpl in Hi.
    rewrite (count_other wall_event is_height evs) in Hi; [lia| |exact Hevs].
    intros []; simpl; congruence.
Qed.

Lemma height_error_raises_key_error_witness :
  let run :=
    confirm_transaction Sample.height_refused Sample.client 10 Sample.tx
                        None (1 # 2) (Some 100) Sample.start in
  fst run = Raised (KeyError "result") /\
  count is_height (log (snd run)) = 2%nat /\
  exists older, log (snd run) = EvGetBlockHeight :: older.
Proof.
  intros run.
  apply (height_error_raises_key_error Sample.height_refused Sample.client
           10 Sample.tx None (1 # 2) (Some 100) Sample.start (snd run)
           (fst run) 1%nat Sample.refused).
  - reflexivity.
  - simpl. lia.
  - reflexivity.
Defined.

(** X7.  Height-bounded mode, the loop condition: every poll of the
    call follows a height read that succeeded and was within the limit:
    the [j]-th poll follows the [j]-th height query. *)
Theorem height_bounded_polls_within_limit
    (w : World) (self : Client) (fuel : nat) (tx_sig : Signature)
    (commitment : option Commitment) (sleep_seconds : Q)
    (limit : Z) (s s' : State) (r : Outcome StatusResponse) (j : nat) :
  limit <> 0 ->
  confirm_transaction w self fuel tx_sig commitment sleep_seconds
                      (Some limit) s = (r, s') ->
  (count is_poll (log s) + j < count is_poll (log s'))%nat ->
  exists c,
    block_height_at w (count is_height (log s) + j) = RespResult c /\
    c <= limit.
Proof.
  intros Hl Hrun Hj.
  rewrite confirm_transaction_height_bounded in Hrun by exact Hl.
  destruct (block_height_at w (count is_height (log s))) as [e|current]
    eqn:Ec.
  - inversion Hrun; subst. simpl in Hj. lia.
  - pose proof (height_polls_within _ _ _ _ _ _ _ _ _ _ _ _ Hrun j Hj) as Hw.
    simpl count in Hw.
    rewrite (observed_from_entry w current _ j Ec) in Hw.
    apply within_result. exact Hw.
Qed.

Lemma height_bounded_polls_within_limit_witness :
  exists c,
    block_height_at Sample.silent (count is_height (log Sample.start) + 1)
      = RespResult c /\
    c <= 102.
Proof.
  apply (height_bounded_polls_within_limit Sample.silent Sample.client 10
           Sample.tx None (1 # 2) 102 Sample.start
           (snd (confirm_transaction Sample.silent Sample.client 10
                   Sample.tx None (1 # 2) (Some 102) Sample.start))
           (fst (confirm_transaction Sample.silent Sample.client 10
                   Sample.tx None (1 # 2) (Some 102) Sample.start)) 1).
  - discriminate.
  - reflexivity.
  - simpl. lia.
Defined.

(** X8.  Height-bounded mode has no time limit: the deadline computed on
    entry is never looked at.  When the height stays within the limit and
    the node keeps answering without error and without a status at the
    target, the call goes on polling whatever the clock says: for every
    bound on the number of turns, the loop uses them all, one poll each,
    and has not ended. *)
Theorem height_bounded_never_times_out
    (w : World) (self : Client) (tx_sig : Signature)
    (commitment : option Commitment) (sleep_seconds : Q)
    (limit : Z) (s : State) :
  limit <> 0 ->
  (forall j, within limit
               (block_height_at w (count is_height (log s) + j)) = true) ->
  (forall j, pending (target_rank self commitment)
               (signature_status_at w (count is_poll (log s) + j)) = true) ->
  forall fuel,
    fst (confirm_transaction w self fuel tx_sig commitment sleep_seconds
                             (Some limit) s) = OutOfFuel /\
    count is_poll
      (log (snd (confirm_transaction w self fuel tx_sig commitment
                   sleep_seconds (Some limit) s)))
    = (count is_poll (log s) + fuel)%nat.
Proof.
  intros Hl Hin Hpend fuel.
  rewrite confirm_transaction_height_bounded by exact Hl.
  pose proof (Hin 0%nat) as H0. apply within_result in H0.
  destruct H0 as [current [Hc Hle]]. rewrite Nat.add_0_r in Hc.
  rewrite Hc.
  apply (height_loop_stalls w tx_sig commitment sleep_seconds
           (target_rank self commitment) fuel limit current None
           (logged [EvGetBlockHeight; EvTime] s) Hle).
  - intros j. simpl count. specialize (Hin (S j)).
    rewrite Nat.add_succ_r in Hin. exact Hin.
  - intros j. exact (Hpend j).
Qed.

Lemma height_bounded_never_times_out_witness :
  fst (confirm_transaction Sample.stalled Sample.client 200 Sample.tx None
         (1 # 2) (Some 100) Sample.start) = OutOfFuel /\
  count is_poll
    (log (snd (confirm_transaction Sample.stalled Sample.client 200
                 Sample.tx None (1 # 2) (Some 100) Sample.start)))
  = (count is_poll (log Sample.start) + 200)%nat.
Proof.
  apply (height_bounded_never_times_out Sample.stalled Sample.client
           Sample.tx None (1 # 2) 100 Sample.start).
  - discriminate.
  - intros j. reflexivity.
  - intros j. reflexivity.
Defined.

(** X9.  What [confirm_transaction] never does: whatever its outcome, it
    leaves the blockhash cache as it was and makes no request other than
    status polls and height queries: it never submits a transaction
    again, never fetches a blockhash and never asks for a fee. *)
Theorem confirmation_only_polls
    (w : World) (self : Client) (fuel : nat) (tx_sig : Signature)
    (commitment : option Commitment) (sleep_seconds : Q)
    (height : option Z) (s : State) :
  let s' :=
    snd (confirm_transaction w self fuel tx_sig commitment sleep_seconds
                             height s) in
  blockhash_cache s' = blockhash_cache s /\
  count is_send (log s') = count is_send (log s) /\
  count is_blockhash (log s') = count is_blockhash (log s) /\
  count is_fee (log s') = count is_fee (log s) /\
  count is_cache_set (log s') = count is_cache_set (log s) /\
  (count is_request (log s') - count is_request (log s)
   = (count is_poll (log s') - count is_poll (log s))
     + (count is_height (log s') - count is_height (log s)))%nat.
Proof.
  intros s'. subst s'.
  destruct (confirm_transaction w self fuel tx_sig commitment sleep_seconds
              height s) as [r s'] eqn:Hrun.
  apply confirm_transaction_frame in Hrun.
  destruct Hrun as [evs [-> Hevs]]. simpl snd.
  split; [reflexivity|].
  rewrite !count_logged.
  rewrite (count_other confirm_event is_send evs),
          (count_other confirm_event is_blockhash evs),
          (count_other confirm_event is_fee evs),
          (count_other confirm_event is_cache_set evs); auto;
    try (intros []; simpl; congruence).
  repeat split.
  assert (Hreq : count is_request evs
                 = (count is_poll evs + count is_height evs)%nat).
  { clear - Hevs. induction Hevs as [|ev evs Hev _ IH]; [reflexivity|].
    destruct ev; simpl in *; try discriminate; lia. }
  lia.
Qed.

(** * Further properties of the submitter *)

(** A log with a single submission splits around it in one way only. *)
Lemma single_send_split (a b : Event) (n1 m1 n2 m2 : list Event) :
  is_send a = true -> is_send b = true ->
  count is_send n1 = 0%nat -> count is_send m1 = 0%nat ->
  n1 ++ a :: m1 = n2 ++ b :: m2 ->
  n1 = n2 /\ a = b /\ m1 = m2.
Proof.
  intros Ha Hb. revert n2.
  induction n1 as [|e n1 IH]; intros n2 Hn Hm E.
  - destruct n2 as [|e' n2]; simpl in E.
    + inversion E; auto.
    + inversion E; subst. rewrite count_app in Hm. simpl in Hm.
      rewrite Hb in Hm. lia.
  - simpl in Hn. destruct (is_send e) eqn:He; [discriminate|].
    destruct n2 as [|e' n2]; simpl in E.
    + inversion E; subst. congruence.
    + inversion E; subst.
      destruct (IH n2 Hn Hm H1) as (-> & -> & ->). auto.
Qed.

(** [send_raw_transaction] logs its request first; only the events of the
    confirmation follow. *)
Lemma send_raw_transaction_events
    (w : World) (self : Client) (lib : Library) (fuel : nat)
    (wire : string) (opts : option TxOpts) (s : State) :
  let opts_to_use :=
    match opts with
    | None => TxOpts_new lib (_commitment self) None
    | Some o => o
    end in
  exists evs,
    log (snd (send_raw_transaction w self lib fuel wire opts s))
      = evs ++ EvSendTransaction wire opts_to_use :: log s /\
    Forall (fun e => confirm_event e = true) evs.
Proof.
  intros opts_to_use.
  change (send_raw_transaction w self lib fuel wire opts s)
    with (send_raw_transaction w self lib fuel wire (Some opts_to_use) s).
  destruct (send_raw_transaction w self lib fuel wire (Some opts_to_use) s)
    as [r s'] eqn:Hrun.
  apply send_raw_transaction_frame in Hrun.
  destruct Hrun as [evs [-> Hevs]].
  exists evs. split; [|exact Hevs].
  simpl. rewrite <- app_assoc. reflexivity.
Qed.

(** The events of a [send_transaction] call: those of the choice of the
    blockhash, one submission, then the confirmation and the refresh of the
    cache. *)
Lemma send_transaction_events
    (w : World) (self : Client) (lib : Library) (fuel : nat)
    (txn : Transaction) (signers : list Keypair) (opts : option TxOpts)
    (recent : option Blockhash) (s : State) :
  exists newer wire o chosen,
    log (snd (send_transaction w self lib fuel txn signers opts recent s))
      = newer ++ EvSendTransaction wire o :: chosen ++ log s /\
    count is_send newer = 0%nat /\
    Forall (fun e => choose_event e = true) chosen.
Proof.
  destruct (send_transaction_dispatch w self lib fuel txn signers opts
              recent s) as [r1 s1] eqn:Hd.
  rewrite (send_transaction_after_dispatch _ _ _ _ _ _ _ _ _ _ _ Hd).
  destruct (choose_blockhash_frame w recent s)
    as (b & captured & chosen & Hc & Hchosen).
  unfold send_transaction_dispatch, bind in Hd. rewrite Hc in Hd.
  apply send_raw_transaction_frame in Hd.
  destruct Hd as [evs [Hs1 Hevs]].
  assert (Hnone : count is_send evs = 0%nat).
  { apply (count_other confirm_event is_send evs); auto.
    intros []; simpl; congruence. }
  assert (Hlog : exists wire o,
            log s1 = evs ++ EvSendTransaction wire o :: chosen ++ log s).
  { do 2 eexists. rewrite Hs1. simpl. rewrite <- app_assoc. reflexivity. }
  destruct Hlog as (wire & o & Hlog).
  destruct r1 as [resp|e|]; simpl snd.
  - destruct (blockhash_cache s1) as [c|]; simpl snd.
    + simpl log. rewrite Hlog.
      exists (EvCacheSet
                (blockhash
                   (latest_blockhash_at w
                      (count is_blockhash
                         (evs ++ EvSendTransaction wire o :: chosen ++ log s))))
                false :: EvTime :: EvGetLatestBlockhash :: evs),
             wire, o, chosen.
      split; [reflexivity|]. split; [exact Hnone|exact Hchosen].
    + exists evs, wire, o, chosen. auto.
  - exists evs, wire, o, chosen. auto.
  - exists evs, wire, o, chosen. auto.
Qed.

(** X10.  No retry.  [send_raw_transaction] submits exactly once per call,
    whatever the outcome (success, an error of the node, a failed
    confirmation), and the submission is the first thing it does.
    [send_transaction] never submits more than once per call, and no
    status poll or height query of the call precedes a submission. *)
Theorem send_transaction_submits_once
    (w : World) (self : Client) (lib : Library) (fuel : nat)
    (wire : string) (raw_opts : option TxOpts)
    (txn : Transaction) (signers : list Keypair) (opts : option TxOpts)
    (recent : option Blockhash) (s : State) :
  let raw := snd (send_raw_transaction w self lib fuel wire raw_opts s) in
  let opts_to_use :=
    match raw_opts with
    | None => TxOpts_new lib (_commitment self) None
    | Some o => o
    end in
  let s' :=
    snd (send_transaction w self lib fuel txn signers opts recent s) in
  (exists evs,
     log raw = evs ++ EvSendTransaction wire opts_to_use :: log s /\
     count is_send evs = 0%nat)
  /\
  (exists evs,
     log s' = evs ++ log s /\
     (count is_send evs <= 1)%nat /\
     forall newer wire' o' older,
       evs = newer ++ EvSendTransaction wire' o' :: older ->
       count is_send newer = 0%nat /\
       count is_poll older = 0%nat /\
       count is_height older = 0%nat).
Proof.
  intros raw opts_to_use s'. split.
  - destruct (send_raw_transaction_events w self lib fuel wire raw_opts s)
      as [evs [Hlog Hevs]].
    exists evs. split; [exact Hlog|].
    apply (count_other confirm_event is_send evs); auto.
    intros []; simpl; congruence.
  - destruct (send_transaction_events w self lib fuel txn signers opts
                recent s) as (newer & w0 & o0 & chosen & Hlog & Hnone & Hch).
    assert (Hs : count is_send chosen = 0%nat).
    { apply (count_other choose_event is_send chosen); auto.
      intros []; simpl; congruence. }
    assert (Hp : count is_poll chosen = 0%nat).
    { apply (count_other choose_event is_poll chosen); auto.
      intros []; simpl; congruence. }
    assert (Hh : count is_height chosen = 0%nat).
    { apply (count_other choose_event is_height chosen); auto.
      intros []; simpl; congruence. }
    exists (newer ++ EvSendTransaction w0 o0 :: chosen).
    split; [|split].
    + fold s'. unfold s'. rewrite Hlog, <- app_assoc. reflexivity.
    + rewrite count_app. simpl. lia.
    + intros newer' wire' o' older E.
      destruct (single_send_split (EvSendTransaction w0 o0)
                  (EvSendTransaction wire' o') newer chosen newer' older
                  eq_refl eq_refl Hnone Hs E)
        as (<- & _ & <-).
      auto.
Qed.

(** With the cache disabled and no blockhash supplied, the dispatch is one
    fetch followed by [send_raw_transaction] on the fetched hash. *)
Lemma uncached_send_transaction
    (w : World) (self : Client) (lib : Library) (fuel : nat)
    (txn : Transaction) (signers : list Keypair) (opts : option TxOpts)
    (s : State) :
  let fetched := latest_blockhash_at w (count is_blockhash (log s)) in
  let wire :=
    serialize lib
      (sign lib (set_recent_blockhash txn (blockhash fetched)) signers) in
  let opts_to_use :=
    match opts with
    | None => TxOpts_new lib (_commitment self)
                         (Some (lastValidBlockHeight fetched))
    | Some o => o
    end in
  blockhash_cache s = None ->
  exists evs,
    snd (send_transaction w self lib fuel txn signers opts None s)
      = logged (evs ++ [EvSendTransaction wire opts_to_use])
               (logged [EvGetLatestBlockhash] s) /\
    Forall (fun e => confirm_event e = true) evs.
Proof.
  intros fetched wire opts_to_use Hnone.
  assert (Hd : send_transaction_dispatch w self lib fuel txn signers opts
                 None s =
               send_raw_transaction w self lib fuel wire (Some opts_to_use)
                                    (logged [EvGetLatestBlockhash] s)).
  { unfold send_transaction_dispatch, bind.
    rewrite (choose_blockhash_uncached w s Hnone). reflexivity. }
  destruct (send_raw_transaction w self lib fuel wire (Some opts_to_use)
              (logged [EvGetLatestBlockhash] s)) as [r1 s1] eqn:Hraw.
  pose proof (send_raw_transaction_frame _ _ _ _ _ _ _ _ _ Hraw) as Hframe.
  destruct Hframe as [evs [Hs1 Hevs]].
  assert (Hcache : blockhash_cache s1 = None).
  { rewrite Hs1. simpl. exact Hnone. }
  rewrite (send_transaction_after_dispatch _ _ _ _ _ _ _ _ _ _ _ Hd).
  exists evs. split; [|exact Hevs].
  rewrite Hcache. destruct r1; simpl; exact Hs1.
Qed.

(** X11.  With the blockhash cache disabled and no blockhash supplied,
    [send_transaction] first asks for the latest blockhash, and that is
    its only blockhash request: nothing is fetched after the dispatch, and
    the cache stays disabled.  A submission of the call comes right after
    the fetch, embeds the fetched hash, and runs under the caller's
    options or, by default, under options that carry the
    [lastValidBlockHeight] that came with the hash. *)
Theorem uncached_send_fetches_once
    (w : World) (self : Client) (lib : Library) (fuel : nat)
    (txn : Transaction) (signers : list Keypair) (opts : option TxOpts)
    (s : State) :
  let fetched := latest_blockhash_at w (count is_blockhash (log s)) in
  let wire :=
    serialize lib
      (sign lib (set_recent_blockhash txn (blockhash fetched)) signers) in
  let opts_to_use :=
    match opts with
    | None => TxOpts_new lib (_commitment self)
                         (Some (lastValidBlockHeight fetched))
    | Some o => o
    end in
  let s' := snd (send_transaction w self lib fuel txn signers opts None s) in
  blockhash_cache s = None ->
  blockhash_cache s' = None
  /\
  exists evs,
    log s' = evs ++ EvGetLatestBlockhash :: log s /\
    count is_blockhash evs = 0%nat /\
    forall newer wire' o' older,
      evs = newer ++ EvSendTransaction wire' o' :: older ->
      older = [] /\ wire' = wire /\ o' = opts_to_use.
Proof.
  intros fetched wire opts_to_use s' Hnone.
  destruct (uncached_send_transaction w self lib fuel txn signers opts s
              Hnone) as [evs [Hs' Hevs]].
  fold fetched wire opts_to_use s' in Hs'.
  assert (Hsend : count is_send evs = 0%nat).
  { apply (count_other confirm_event is_send evs); auto.
    intros []; simpl; congruence. }
  split; [rewrite Hs'; exact Hnone|].
  exists (evs ++ [EvSendTransaction wire opts_to_use]).
  split; [|split].
  - rewrite Hs'. reflexivity.
  - rewrite count_app. simpl.
    rewrite (count_other confirm_event is_blockhash evs); auto.
    intros []; simpl; congruence.
  - intros newer wire' o' older E.
    destruct (single_send_split (EvSendTransaction wire opts_to_use)
                (EvSendTransaction wire' o') evs [] newer older
                eq_refl eq_refl Hsend eq_refl E)
      as (_ & Eev & <-).
    inversion Eev; subst. auto.
Qed.

Lemma uncached_send_fetches_once_witness :
  let w := Sample.third_poll_confirmed in
  let s' :=
    snd (send_transaction w Sample.client Sample.library 10 Sample.transfer
           [Sample.sender] None None Sample.start) in
  blockhash_cache s' = None
  /\
  exists evs,
    log s' = evs ++ EvGetLatestBlockhash :: log Sample.start /\
    count is_blockhash evs = 0%nat /\
    forall newer wire' o' older,
      evs = newer ++ EvSendTransaction wire' o' :: older ->
      older = [] /\
      wire' = "transfer 1000 lamports"%string /\
      o' = mkTxOpts true false Finalized (Some 3090).
Proof.
  intros w s'.
  apply (uncached_send_fetches_once w Sample.client Sample.library 10
           Sample.transfer [Sample.sender] None Sample.start).
  reflexivity.
Defined.

(** The confirmation of a submission without a height only reads the
    clock, polls and sleeps. *)
Lemma post_send_with_confirm_wall_clock
    (w : World) (self : Client) (fuel : nat) (resp : SendResponse)
    (conf_comm : Commitment) (s s' : State) (r : Outcome SendResponse) :
  post_send_with_confirm w self fuel resp conf_comm None s = (r, s') ->
  exists evs, s' = logged evs s /\ Forall (fun e => wall_event e = true) evs.
Proof.
  unfold post_send_with_confirm, bind. destruct resp as [e|tx_sig]; simpl.
  - intros H. inversion H; subst. exists []. rewrite logged_nil. auto.
  - destruct (confirm_transaction w self fuel tx_sig (Some conf_comm) (1 # 2)
                None s) as [r0 s0] eqn:Hc.
    rewrite confirm_transaction_wall_clock in Hc by reflexivity.
    apply wall_clock_loop_ending in Hc; [|exact I].
    destruct Hc as [[evs [-> Hevs]] _]. rewrite logged_logged.
    assert (Hall : Forall (fun e => wall_event e = true) (evs ++ [EvTime])).
    { apply Forall_app. split; [exact Hevs|repeat constructor]. }
    destruct r0; intros H; inversion H; subst; eauto.
Qed.

(** X12.  With a blockhash supplied by the caller and no options,
    [send_transaction] submits at once: the submission is the first thing
    the call does (no blockhash fetch and no cache lookup precede it), it
    embeds the supplied hash and its options carry no height.  The
    confirmation, if there is one, can therefore only time out: the call
    never asks for the block height. *)
Theorem supplied_blockhash_confirms_by_wall_clock
    (w : World) (self : Client) (lib : Library) (fuel : nat)
    (txn : Transaction) (signers : list Keypair) (b : Blockhash)
    (s : State) :
  let s' :=
    snd (send_transaction w self lib fuel txn signers None (Some b) s) in
  exists newer,
    log s' =
      newer
      ++ EvSendTransaction
           (serialize lib (sign lib (set_recent_blockhash txn b) signers))
           (TxOpts_new lib (_commitment self) None)
      :: log s /\
    count is_height newer = 0%nat /\
    count is_send newer = 0%nat /\
    (blockhash_cache s = None -> count is_blockhash newer = 0%nat).
Proof.
  intros s'. subst s'.
  set (wire := serialize lib (sign lib (set_recent_blockhash txn b) signers)).
  set (o := TxOpts_new lib (_commitment self) None).
  assert (Hd : send_transaction_dispatch w self lib fuel txn signers None
                 (Some b) s =
               send_raw_transaction w self lib fuel wire (Some o) s)
    by reflexivity.
  destruct (send_raw_transaction w self lib fuel wire (Some o) s)
    as [r1 s1] eqn:Hraw.
  assert (Hwall : exists evs,
             s1 = logged (evs ++ [EvSendTransaction wire o]) s /\
             Forall (fun e => wall_event e = true) evs).
  { rewrite send_raw_transaction_explicit in Hraw. cbv zeta in Hraw.
    destruct (skip_confirmation o).
    - exists []. split; [|constructor].
      pose proof (post_send_state
                    (send_transaction_at w (count is_send (log s)))
                    (logged [EvSendTransaction wire o] s)) as Hs.
      rewrite Hraw in Hs. simpl in Hs. subst s1. reflexivity.
    - apply post_send_with_confirm_wall_clock in Hraw.
      destruct Hraw as [evs [-> Hevs]]. rewrite logged_logged. eauto. }
  destruct Hwall as [evs [Hs1 Hevs]].
  assert (Hh : count is_height evs = 0%nat).
  { apply (count_other wall_event is_height evs); [|exact Hevs].
    intros []; simpl; congruence. }
  assert (Hsd : count is_send evs = 0%nat).
  { apply (count_other wall_event is_send evs); [|exact Hevs].
    intros []; simpl; congruence. }
  assert (Hb : count is_blockhash evs = 0%nat).
  { apply (count_other wall_event is_blockhash evs); [|exact Hevs].
    intros []; simpl; congruence. }
  rewrite (send_transaction_after_dispatch _ _ _ _ _ _ _ _ _ _ _ Hd).
  assert (Hcache : blockhash_cache s1 = blockhash_cache s)
    by (rewrite Hs1; reflexivity).
  assert (Hlog : log s1 = evs ++ EvSendTransaction wire o :: log s).
  { rewrite Hs1. simpl. rewrite <- app_assoc. reflexivity. }
  destruct r1 as [resp|e|]; simpl snd.
  - destruct (blockhash_cache s1) as [c|] eqn:Hc1; simpl snd.
    + exists (EvCacheSet
                (blockhash
                   (latest_blockhash_at w (count is_blockhash (log s1))))
                false :: EvTime :: EvGetLatestBlockhash :: evs).
      simpl log. rewrite Hlog. simpl.
      repeat split; auto. intros Hn. congruence.
    + exists evs. rewrite Hlog. auto.
  - exists evs. rewrite Hlog. auto.
  - exists evs. rewrite Hlog. auto.
Qed.

(** The dispatch of a call without cache and without a supplied
    blockhash. *)
Lemma uncached_dispatch
    (w : World) (self : Client) (lib : Library) (fuel : nat)
    (txn : Transaction) (signers : list Keypair) (s : State) :
  blockhash_cache s = None ->
  send_transaction_dispatch w self lib fuel txn signers None None s =
  send_raw_transaction w self lib fuel
    (serialize lib
       (sign lib
          (set_recent_blockhash txn
             (blockhash (latest_blockhash_at w (count is_blockhash (log s)))))
          signers))
    (Some (TxOpts_new lib (_commitment self)
             (Some (lastValidBlockHeight
                      (latest_blockhash_at w (count is_blockhash (log s)))))))
    (logged [EvGetLatestBlockhash] s).
Proof.
  intros Hnone. unfold send_transaction_dispatch, bind.
  rewrite (choose_blockhash_uncached w s Hnone). reflexivity.
Qed.

(** X13.  How the fetched height reaches the poller.  With the cache
    disabled, no blockhash and no options supplied, and a confirmation not
    skipped by default: once the node accepts the submission, the call is
    the confirmation of the returned signature at the client's default
    commitment, bounded by the [lastValidBlockHeight] that came with the
    fetched blockhash; when that height is not zero the confirmation is a
    height-bounded run, and the call returns the submission's response,
    not the status response. *)
Theorem fetched_height_bounds_confirmation
    (w : World) (self : Client) (lib : Library) (fuel : nat)
    (txn : Transaction) (signers : list Keypair) (s : State)
    (tx_sig : Signature) :
  let fetched := latest_blockhash_at w (count is_blockhash (log s)) in
  let wire :=
    serialize lib
      (sign lib (set_recent_blockhash txn (blockhash fetched)) signers) in
  let opts_to_use :=
    TxOpts_new lib (_commitment self) (Some (lastValidBlockHeight fetched)) in
  let sent :=
    logged [EvSendTransaction wire opts_to_use; EvGetLatestBlockhash] s in
  blockhash_cache s = None ->
  TxOpts_skip_confirmation lib = false ->
  send_transaction_at w (count is_send (log s)) = RespResult tx_sig ->
  send_transaction w self lib fuel txn signers None None s =
    (let (r, s2) :=
       confirm_transaction w self fuel tx_sig (Some (_commitment self))
                           (1 # 2) (Some (lastValidBlockHeight fetched))
                           sent in
     (match r with
      | Returned _ => Returned (RespResult tx_sig)
      | Raised e => Raised e
      | OutOfFuel => OutOfFuel
      end, s2))
  /\
  (lastValidBlockHeight fetched <> 0 ->
   height_bounded_run sent
     (snd (send_transaction w self lib fuel txn signers None None s))).
Proof.
  intros fetched wire opts_to_use sent Hnone Hskip Hresp.
  pose proof (uncached_dispatch w self lib fuel txn signers s Hnone) as Hd.
  fold fetched wire opts_to_use in Hd.
  assert (Hraw : send_raw_transaction w self lib fuel wire (Some opts_to_use)
                   (logged [EvGetLatestBlockhash] s) =
                 (let (r, s2) :=
                    confirm_transaction w self fuel tx_sig
                      (Some (_commitment self)) (1 # 2)
                      (Some (lastValidBlockHeight fetched)) sent in
                  (match r with
                   | Returned _ => Returned (RespResult tx_sig)
                   | Raised e => Raised e
                   | OutOfFuel => OutOfFuel
                   end, s2))).
  { rewrite send_raw_transaction_explicit. cbv zeta.
    unfold opts_to_use at 1. simpl skip_confirmation. rewrite Hskip.
    simpl count. rewrite Hresp.
    unfold post_send_with_confirm, bind. simpl.
    change (logged [EvSendTransaction wire opts_to_use]
              (logged [EvGetLatestBlockhash] s)) with sent.
    change (preflight_commitment opts_to_use) with (_commitment self).
    change (last_valid_block_height opts_to_use)
      with (Some (lastValidBlockHeight fetched)).
    destruct (confirm_transaction w self fuel tx_sig
                (Some (_commitment self)) (1 # 2)
                (Some (lastValidBlockHeight fetched)) sent) as [r s2].
    destruct r; reflexivity. }
  rewrite Hraw in Hd.
  destruct (confirm_transaction w self fuel tx_sig (Some (_commitment self))
              (1 # 2) (Some (lastValidBlockHeight fetched)) sent)
    as [r s2] eqn:Hconf.
  rewrite (send_transaction_after_dispatch _ _ _ _ _ _ _ _ _ _ _ Hd).
  assert (Hcache : blockhash_cache s2 = None).
  { apply confirm_transaction_frame in Hconf.
    destruct Hconf as [evs [-> _]]. simpl. exact Hnone. }
  assert (Hrun : height_bounded_run sent s2 \/
                 lastValidBlockHeight fetched = 0).
  { destruct (Z.eq_dec (lastValidBlockHeight fetched) 0) as [Hz|Hnz];
      [right; exact Hz|left].
    exact (confirm_transaction_height_bounded_run _ _ _ _ _ _ _ _ _ _
             Hnz Hconf). }
  rewrite Hcache. split.
  - destruct r; reflexivity.
  - intros Hnz. destruct Hrun as [Hrun|Hz]; [|contradiction].
    destruct r; exact Hrun.
Qed.

Lemma fetched_height_bounds_confirmation_witness :
  let w := Sample.third_poll_confirmed in
  let lib :=
    mkLibrary (sign Sample.library) (serialize Sample.library) false false in
  let sent :=
    mkState [EvSendTransaction "transfer 1000 lamports"
               (mkTxOpts false false Finalized (Some 3090));
             EvGetLatestBlockhash] None in
  send_transaction w Sample.client lib 10 Sample.transfer [Sample.sender]
                   None None Sample.start =
    (let (r, s2) :=
       confirm_transaction w Sample.client 10 Sample.tx (Some Finalized)
                           (1 # 2) (Some 3090) sent in
     (match r with
      | Returned _ => Returned (RespResult Sample.tx)
      | Raised e => Raised e
      | OutOfFuel => OutOfFuel
      end, s2))
  /\
  (3090 <> 0 ->
   height_bounded_run sent
     (snd (send_transaction w Sample.client lib 10 Sample.transfer
             [Sample.sender] None None Sample.start))).
Proof.
  intros w lib sent.
  apply (fetched_height_bounds_confirmation w Sample.client lib 10
           Sample.transfer [Sample.sender] Sample.start Sample.tx);
    reflexivity.
Defined.
